(** * Stat Derivation Engine of the status tracker (client/src/utils/statCalculator.js)

    Shallow embedding of the stat calculator, the bond synchronisation of
    [CharacterContext.js] and the snapshot capture of [Valtherion.js].

    Modelling conventions:
    - JavaScript numbers are modelled as exact rationals [Q]; levels as [Z].
      The rounding of double arithmetic is not modelled, except by the [js_]
      definitions, which evaluate single expressions on IEEE-754 binary64
      numbers ([SpecFloat]).
    - A JS object used as a map from stat name to number is an association
      list [smap]; lookups return the first binding, [undefined] is [None].
    - [x || d] on a number is [jsor x d]: [d] when [x] is [0], else [x];
      [m?.[k] || d] is [num_or (smap_get m k) d].
    - [Math.round x] is [Qfloor (x + 1/2)].
    - Display-only strings of the breakdown (details, labels) are omitted. *)

From Stdlib Require Import ZArith QArith Qround Qminmax String List Bool Lia Lqa.
From Stdlib Require Import Sorted Permutation.
From Stdlib Require Import Floats.SpecFloat.
Import ListNotations.

Open Scope Q_scope.

(** ** Maps from stat names to numbers *)

Definition smap := list (string * Q).

Fixpoint smap_get (m : smap) (k : string) : option Q :=
  match m with
  | [] => None
  | (k', v) :: r => if String.eqb k k' then Some v else smap_get r k
  end.

Definition smap_has (m : smap) (k : string) : bool :=
  match smap_get m k with Some _ => true | None => false end.

(** [obj[k] = v] on a key already present. *)
Fixpoint smap_set (m : smap) (k : string) (v : Q) : smap :=
  match m with
  | [] => []
  | (k', v') :: r =>
      if String.eqb k k' then (k', v) :: r else (k', v') :: smap_set r k v
  end.

Definition Qltb (x y : Q) : bool := negb (Qle_bool y x).

(** [x || d] for a number [x]. *)
Definition jsor (x d : Q) : Q := if Qeq_bool x 0 then d else x.

(** [m?.[k] || d] (also [Number(m?.[k]) || d]). *)
Definition num_or (o : option Q) (d : Q) : Q :=
  match o with Some x => jsor x d | None => d end.

(** [Math.round]. *)
Definition Math_round (x : Q) : Z := Qfloor (x + (1 # 2)).

(** ** Stat names *)

Definition PHYSICAL_STATS : list string :=
  ["strength"; "agility"; "constitution"; "vitality"]%string.
Definition MAGICAL_STATS : list string :=
  ["intellect"; "willpower"; "mana"; "wisdom"]%string.
Definition ALL_STATS : list string := PHYSICAL_STATS ++ MAGICAL_STATS.

(** [ALL_STATS.forEach(stat => bonuses[stat] = 0)] *)
Definition zero_stats : smap := map (fun s => (s, 0)) ALL_STATS.

(** ** Character record *)

(** A growth phase (an entry of [classHistory]); [endLevel = None] is [null]. *)
Record growth_class := {
  cls_name : string;
  startLevel : Z;
  endLevel : option Z;
  statsPerLevel : smap
}.

(** Trait effects, dispatched by their [type] string in the source. *)
Inductive effect :=
| StatMultiplier (stat : string) (multiplier : Q)
| RedirectFreePoints (toStat : string)
| StatDerivation (sourceStat targetStat : string) (percent : Q).

Record trait := { trait_name : string; effects : list effect }.

(** A title bonus; [b_value] is the legacy [value] field (0 when absent). *)
Record bonus := { b_stat : string; b_additive : Q; b_value : Q; b_multiplier : Q }.

(** [title_enabled = false] is [enabled === false]; absent means enabled. *)
Record title := { title_name : string; title_enabled : bool; title_bonuses : list bonus }.

(** [boost_enabled] is [enabled !== false], the only reading of the field in
    the code: an absent [enabled] and [enabled: true] are both [true]. *)
Record statBoost := {
  boost_description : string;
  boost_stat : string;
  boost_additive : Q;
  boost_multiplier : Q;
  boost_enabled : bool
}.

Record derivation := { sourceStat : string; targetStat : string; percent : Q }.

(** A level snapshot. [snap_stats = Some m] is the new format [{stats: m, ...}];
    [None] is the old format whose stat values sit at top level in
    [snap_direct]. Missing ledger maps are empty lists. *)
Record snapshot := {
  snap_stats : option smap;
  snap_direct : smap;
  rawTitleBonuses : smap;
  includedTraitMultipliers : smap;
  includedTitleBonuses : smap;
  includedTitleMultipliers : smap;
  includedStatBoostBonuses : smap;
  includedStatBoostMultipliers : smap;
  includedDerivationBonuses : smap
}.

Record character := {
  level : Z;
  classHistory : list growth_class;
  levelSnapshots : list (Z * snapshot);
  freePoints : smap;
  traits : list trait;          (* [traits.items] *)
  titles : list title;
  statBoosts : list statBoost;
  statDerivations : list derivation;
  hp_current : option Q;        (* [character.hp?.current] *)
  mp_current : option Q         (* [character.mp?.current] *)
}.

(** ** Snapshot access *)

(** [getMostRecentSnapshotLevel]: the greatest key [<= currentLevel]. *)
Fixpoint getMostRecentSnapshotLevel (snaps : list (Z * snapshot)) (currentLevel : Z)
  : option Z :=
  match snaps with
  | [] => None
  | (lvl, _) :: r =>
      let best := getMostRecentSnapshotLevel r currentLevel in
      if (lvl <=? currentLevel)%Z then
        match best with Some b => Some (Z.max lvl b) | None => Some lvl end
      else best
  end.

(** [levelSnapshots[lvl]] *)
Fixpoint snap_lookup (snaps : list (Z * snapshot)) (lvl : Z) : option snapshot :=
  match snaps with
  | [] => None
  | (k, s) :: r => if (k =? lvl)%Z then Some s else snap_lookup r lvl
  end.

(** [snapshots[lvl] = s] on a copy of the snapshot object. *)
Fixpoint snap_put (snaps : list (Z * snapshot)) (lvl : Z) (s : snapshot)
  : list (Z * snapshot) :=
  match snaps with
  | [] => [(lvl, s)]
  | (k, s') :: r => if (k =? lvl)%Z then (k, s) :: r else (k, s') :: snap_put r lvl s
  end.

Definition getSnapshotStatValue (s : snapshot) (statName : string) : Q :=
  match snap_stats s with
  | Some m => num_or (smap_get m statName) 0
  | None => num_or (smap_get (snap_direct s) statName) 0
  end.

Record included_titles := {
  inc_additive : Q; inc_multiplier : Q; inc_rawAdditive : Q; inc_traitMultiplier : Q
}.

Definition getSnapshotIncludedTitleBonuses (s : snapshot) (statName : string)
  : included_titles :=
  let rawAdditive := num_or (smap_get (rawTitleBonuses s) statName) 0 in
  let traitMult := num_or (smap_get (includedTraitMultipliers s) statName) 1 in
  let additive := num_or (smap_get (includedTitleBonuses s) statName)
                         (rawAdditive * traitMult) in
  let multiplier := num_or (smap_get (includedTitleMultipliers s) statName) 0 in
  {| inc_additive := additive; inc_multiplier := multiplier;
     inc_rawAdditive := rawAdditive; inc_traitMultiplier := traitMult |}.

Definition getSnapshotIncludedDerivation (s : option snapshot) (statName : string) : Q :=
  match s with
  | None => 0
  | Some s => num_or (smap_get (includedDerivationBonuses s) statName) 0
  end.

(** Returns [(additive, multiplier)]. *)
Definition getSnapshotIncludedStatBoosts (s : snapshot) (statName : string) : Q * Q :=
  (num_or (smap_get (includedStatBoostBonuses s) statName) 0,
   num_or (smap_get (includedStatBoostMultipliers s) statName) 0).

(** ** Growth Table Resolver: [calculateClassScaling] *)

(** The contribution of one class, the body of the [for] loop. *)
Definition class_contribution (currentLevel snapshotLevel : Z) (statName : string)
  (cls : growth_class) : Q :=
  let classStart := if (startLevel cls =? 0)%Z then 1%Z else startLevel cls in
  let perLevel := num_or (smap_get (statsPerLevel cls) statName) 0 in
  let rangeStart := (snapshotLevel + 1)%Z in
  let rangeEnd := currentLevel in
  let effectiveStart := Z.max rangeStart (classStart + 1) in
  let effectiveEnd :=
    match endLevel cls with None => rangeEnd | Some e => Z.min rangeEnd e end in
  if (effectiveStart <=? effectiveEnd)%Z && Qltb 0 perLevel then
    perLevel * inject_Z (effectiveEnd - effectiveStart + 1)
  else 0.

Definition calculateClassScaling (c : character) (statName : string)
  (snapshotLevel : option Z) : Q :=
  match classHistory c, snapshotLevel with
  | [], _ => 0
  | _, None => 0
  | cs, Some sl =>
      fold_left (fun total cls => total + class_contribution (level c) sl statName cls)
        cs 0
  end.

(** ** Trait Effect Resolver *)

Definition getTraitMultiplier (ts : list trait) (statName : string) : Q :=
  fold_left (fun m t =>
    fold_left (fun m e =>
      match e with
      | StatMultiplier s k => if String.eqb s statName then m * jsor k 1 else m
      | _ => m
      end) (effects t) m) ts 1.

Definition getStatDerivations (ts : list trait) : list derivation :=
  flat_map (fun t =>
    flat_map (fun e =>
      match e with
      | StatDerivation src tgt p =>
          [{| sourceStat := src; targetStat := tgt; percent := jsor p 0 |}]
      | _ => []
      end) (effects t)) ts.

(** [trait.effects.find(e => e.type === 'redirect_free_points')] *)
Fixpoint find_redirect (es : list effect) : option string :=
  match es with
  | [] => None
  | RedirectFreePoints t :: _ => Some t
  | _ :: r => find_redirect r
  end.

(** Returns [(targetStat, points)]; [targetStat = None] is [null]. *)
Fixpoint getRedirectedFreePoints (ts : list trait) (lvl fromLevel : Z)
  : option string * Q :=
  match ts with
  | [] => (None, 0)
  | t :: r =>
      match find_redirect (effects t) with
      | Some toStat =>
          if String.eqb toStat "" then getRedirectedFreePoints r lvl fromLevel
          else
            let freePointsPerLevel := 3 in
            let levelUps := Z.max 0 (lvl - fromLevel) in
            (Some toStat, freePointsPerLevel * inject_Z levelUps)
      | None => getRedirectedFreePoints r lvl fromLevel
      end
  end.

(** ** Bonus Aggregator *)

(** [if (bonus.stat && bonuses.hasOwnProperty(bonus.stat)) bonuses[bonus.stat] += v] *)
Definition smap_add_if (m : smap) (k : string) (v : Q) : smap :=
  match smap_get m k with
  | Some old => smap_set m k (old + v)
  | None => m
  end.

Definition title_bonus_additive (b : bonus) : Q := jsor (b_additive b) (jsor (b_value b) 0).

Definition getTitleAdditiveBonuses (ts : list title) : smap :=
  fold_left (fun m t =>
    if negb (title_enabled t) then m
    else fold_left (fun m b => smap_add_if m (b_stat b) (title_bonus_additive b))
           (title_bonuses t) m) ts zero_stats.

Definition getTitleMultiplierBonuses (ts : list title) : smap :=
  fold_left (fun m t =>
    if negb (title_enabled t) then m
    else fold_left (fun m b => smap_add_if m (b_stat b) (jsor (b_multiplier b) 0))
           (title_bonuses t) m) ts zero_stats.

Definition getStatBoostAdditiveBonuses (bs : list statBoost) : smap :=
  fold_left (fun m b =>
    if negb (boost_enabled b) then m
    else smap_add_if m (boost_stat b) (jsor (boost_additive b) 0)) bs zero_stats.

Definition getStatBoostMultiplierBonuses (bs : list statBoost) : smap :=
  fold_left (fun m b =>
    if negb (boost_enabled b) then m
    else smap_add_if m (boost_stat b) (jsor (boost_multiplier b) 0)) bs zero_stats.

(** ** Delta Composer: [calculateStatWithBreakdown] *)

Record breakdown := {
  bd_snapshotBase : Q;
  bd_snapshotLevel : option Z;
  bd_snapshotIncludedTitleAdditive : Q;
  bd_snapshotIncludedTitleMultiplier : Q;
  bd_snapshotIncludedBoostAdditive : Q;
  bd_snapshotIncludedBoostMultiplier : Q;
  bd_snapshotRawTitleAdditive : Q;
  bd_snapshotTraitMultiplier : Q;
  bd_redirectedFreePoints : Q;
  bd_classScaling : Q;
  bd_freePoints : Q;
  bd_traitMultiplier : Q;
  bd_gainsBeforeTrait : Q;
  bd_gainsAfterTrait : Q;
  bd_titleAdditive : Q;
  bd_titleAdditiveAfterTrait : Q;
  bd_titleMultiplier : Q;
  bd_titleMultiplierEnhanced : bool;
  bd_effectiveTitleMultiplier : Q;
  bd_statBoostAdditive : Q;
  bd_statBoostMultiplier : Q;
  bd_preFinalValue : Q;
  bd_derivationBonus : Q;
  bd_final : Q
}.

(** The snapshot that applies to a character, with its level. *)
Definition current_snapshot (c : character) : option Z * option snapshot :=
  let snapshotLevel := getMostRecentSnapshotLevel (levelSnapshots c) (level c) in
  (snapshotLevel,
   match snapshotLevel with
   | Some l => snap_lookup (levelSnapshots c) l
   | None => None
   end).

(** [snapshotLevel || 1] *)
Definition from_level (snapshotLevel : option Z) : Z :=
  match snapshotLevel with
  | Some l => if (l =? 0)%Z then 1%Z else l
  | None => 1%Z
  end.

(** Step 9: the net title additive bonus. *)
Definition netTitleAdditive_of (titleAdditive traitMultiplier titleAdditiveAfterTrait
  snapshotRawTitleAdditive snapshotTraitMultiplier snapshotIncludedTitleAdditive : Q) : Q :=
  if Qltb 0 snapshotRawTitleAdditive || negb (Qeq_bool snapshotTraitMultiplier 1) then
    let currentRaw := titleAdditive in
    let snapshotRaw := snapshotRawTitleAdditive in
    if Qeq_bool currentRaw snapshotRaw then 0
    else currentRaw * traitMultiplier - snapshotRaw * snapshotTraitMultiplier
  else titleAdditiveAfterTrait - snapshotIncludedTitleAdditive.

Definition calculateStatWithBreakdown (statName : string) (c : character) : Q * breakdown :=
  (* 1. base from the most recent snapshot *)
  let '(snapshotLevel, snapshot) := current_snapshot c in
  let '(snapshotBase, bdSnapshotLevel, incTitleAdd, incTitleMult,
        rawTitleAdd, snapTraitMult, incBoostAdd, incBoostMult) :=
    match snapshot with
    | Some s =>
        let it := getSnapshotIncludedTitleBonuses s statName in
        let ib := getSnapshotIncludedStatBoosts s statName in
        (getSnapshotStatValue s statName, snapshotLevel, inc_additive it,
         inc_multiplier it, inc_rawAdditive it, inc_traitMultiplier it, fst ib, snd ib)
    | None => (0, None, 0, 0, 0, 1, 0, 0)
    end in
  (* 2. redirected free points *)
  let redirected := getRedirectedFreePoints (traits c) (level c) (from_level snapshotLevel) in
  let redirectedFreePoints :=
    match fst redirected with
    | Some t => if String.eqb t statName then snd redirected else 0
    | None => 0
    end in
  (* 3. class scaling *)
  let classScaling := calculateClassScaling c statName snapshotLevel in
  (* 4. manual free points, only if not redirected to another stat *)
  let fp :=
    match fst redirected with
    | None => num_or (smap_get (freePoints c) statName) 0
    | Some t => if String.eqb t statName
                then num_or (smap_get (freePoints c) statName) 0 else 0
    end in
  (* 5. and 6. gains and trait multiplier *)
  let gainsBeforeTrait := redirectedFreePoints + classScaling + fp in
  let traitMultiplier := getTraitMultiplier (traits c) statName in
  let gainsAfterTrait := gainsBeforeTrait * traitMultiplier in
  (* 7. and 8. current title and boost bonuses *)
  let titleAdditive := num_or (smap_get (getTitleAdditiveBonuses (titles c)) statName) 0 in
  let titleAdditiveAfterTrait := titleAdditive * traitMultiplier in
  let statBoostAdditive :=
    num_or (smap_get (getStatBoostAdditiveBonuses (statBoosts c)) statName) 0 in
  let statBoostMultiplier :=
    num_or (smap_get (getStatBoostMultiplierBonuses (statBoosts c)) statName) 0 in
  (* 9. net additive bonuses *)
  let netTitleAdditive :=
    netTitleAdditive_of titleAdditive traitMultiplier titleAdditiveAfterTrait
      rawTitleAdd snapTraitMult incTitleAdd in
  let netBoostAdditive := statBoostAdditive - incBoostAdd in
  (* 10. pre-multiplier value *)
  let preFinalValue := snapshotBase + gainsAfterTrait + netTitleAdditive + netBoostAdditive in
  (* 11. net multipliers *)
  let titleMultiplier :=
    num_or (smap_get (getTitleMultiplierBonuses (titles c)) statName) 0 in
  let netTitleMultiplier0 := titleMultiplier - incTitleMult in
  let netBoostMultiplier := statBoostMultiplier - incBoostMult in
  let enhanced :=
    (30 <=? level c)%Z && Qltb 1 traitMultiplier && Qltb 0 netTitleMultiplier0 in
  let netTitleMultiplier :=
    if enhanced then netTitleMultiplier0 * traitMultiplier else netTitleMultiplier0 in
  let totalNetMultiplier := netTitleMultiplier + netBoostMultiplier in
  (* 12. apply the net multiplicative bonuses *)
  let finalValue :=
    if Qltb 0 totalNetMultiplier then preFinalValue * (1 + totalNetMultiplier)
    else preFinalValue in
  let final := inject_Z (Math_round finalValue) in
  (final,
   {| bd_snapshotBase := snapshotBase;
      bd_snapshotLevel := bdSnapshotLevel;
      bd_snapshotIncludedTitleAdditive := incTitleAdd;
      bd_snapshotIncludedTitleMultiplier := incTitleMult;
      bd_snapshotIncludedBoostAdditive := incBoostAdd;
      bd_snapshotIncludedBoostMultiplier := incBoostMult;
      bd_snapshotRawTitleAdditive := rawTitleAdd;
      bd_snapshotTraitMultiplier := snapTraitMult;
      bd_redirectedFreePoints := redirectedFreePoints;
      bd_classScaling := classScaling;
      bd_freePoints := fp;
      bd_traitMultiplier := traitMultiplier;
      bd_gainsBeforeTrait := gainsBeforeTrait;
      bd_gainsAfterTrait := gainsAfterTrait;
      bd_titleAdditive := titleAdditive;
      bd_titleAdditiveAfterTrait := titleAdditiveAfterTrait;
      bd_titleMultiplier := titleMultiplier;
      bd_titleMultiplierEnhanced := enhanced;
      bd_effectiveTitleMultiplier := netTitleMultiplier;
      bd_statBoostAdditive := statBoostAdditive;
      bd_statBoostMultiplier := statBoostMultiplier;
      bd_preFinalValue := preFinalValue;
      bd_derivationBonus := 0;
      bd_final := final |}).

(** ** Derivation Resolver: [calculateAllStats] *)

Definition bdmap := list (string * breakdown).

Fixpoint bdmap_get (m : bdmap) (k : string) : option breakdown :=
  match m with
  | [] => None
  | (k', b) :: r => if String.eqb k k' then Some b else bdmap_get r k
  end.

Fixpoint bdmap_update (m : bdmap) (k : string) (f : breakdown -> breakdown) : bdmap :=
  match m with
  | [] => []
  | (k', b) :: r =>
      if String.eqb k k' then (k', f b) :: r else (k', b) :: bdmap_update r k f
  end.

(** [breakdowns[target].derivationBonus = d; breakdowns[target].final = v] *)
Definition set_derivation (d v : Q) (b : breakdown) : breakdown :=
  {| bd_snapshotBase := bd_snapshotBase b;
     bd_snapshotLevel := bd_snapshotLevel b;
     bd_snapshotIncludedTitleAdditive := bd_snapshotIncludedTitleAdditive b;
     bd_snapshotIncludedTitleMultiplier := bd_snapshotIncludedTitleMultiplier b;
     bd_snapshotIncludedBoostAdditive := bd_snapshotIncludedBoostAdditive b;
     bd_snapshotIncludedBoostMultiplier := bd_snapshotIncludedBoostMultiplier b;
     bd_snapshotRawTitleAdditive := bd_snapshotRawTitleAdditive b;
     bd_snapshotTraitMultiplier := bd_snapshotTraitMultiplier b;
     bd_redirectedFreePoints := bd_redirectedFreePoints b;
     bd_classScaling := bd_classScaling b;
     bd_freePoints := bd_freePoints b;
     bd_traitMultiplier := bd_traitMultiplier b;
     bd_gainsBeforeTrait := bd_gainsBeforeTrait b;
     bd_gainsAfterTrait := bd_gainsAfterTrait b;
     bd_titleAdditive := bd_titleAdditive b;
     bd_titleAdditiveAfterTrait := bd_titleAdditiveAfterTrait b;
     bd_titleMultiplier := bd_titleMultiplier b;
     bd_titleMultiplierEnhanced := bd_titleMultiplierEnhanced b;
     bd_effectiveTitleMultiplier := bd_effectiveTitleMultiplier b;
     bd_statBoostAdditive := bd_statBoostAdditive b;
     bd_statBoostMultiplier := bd_statBoostMultiplier b;
     bd_preFinalValue := bd_preFinalValue b;
     bd_derivationBonus := d;
     bd_final := v |}.

(** [Math.floor(stats[sourceStat] * (percent / 100))], with the product taken
    exactly; [js_derivation_bonus] below rounds it as the doubles of JS do. *)
Definition derivation_bonus (source percent : Q) : Q :=
  inject_Z (Qfloor (source * (percent / 100))).

(** ** The same expression on IEEE-754 binary64 numbers *)

Definition js_prec : Z := 53%Z.
Definition js_emax : Z := 1024%Z.

(** The double holding an integer. *)
Definition js_of_Z (z : Z) : spec_float := binary_normalize js_prec js_emax z 0 false.

Definition js_mul (x y : spec_float) : spec_float := SFmul js_prec js_emax x y.
Definition js_div (x y : spec_float) : spec_float := SFdiv js_prec js_emax x y.

(** The exact value of a finite double. *)
Definition js_to_Q (f : spec_float) : option Q :=
  match f with
  | S754_zero _ => Some 0
  | S754_finite sgn m e => Some ((if sgn then -1 else 1) * inject_Z (Zpos m) * Qpower 2 e)
  | _ => None
  end.

(** [Math.floor(stats[sourceStat] * (percent / 100))] (statCalculator.js
    line 668) for integer [stats[sourceStat]] and [percent]. *)
Definition js_derivation_bonus (source percent : Z) : option Z :=
  option_map Qfloor
    (js_to_Q (js_mul (js_of_Z source) (js_div (js_of_Z percent) (js_of_Z 100)))).

(** The effect of one derivation rule on the stat map. *)
Definition derive_stats (snap : option snapshot) (stats : smap) (d : derivation) : smap :=
  match smap_get stats (sourceStat d), smap_get stats (targetStat d) with
  | Some vs, Some vt =>
      let bonus := derivation_bonus vs (percent d) in
      let snapshotDerivation := getSnapshotIncludedDerivation snap (targetStat d) in
      let netBonus := bonus - snapshotDerivation in
      if negb (Qeq_bool netBonus 0) then smap_set stats (targetStat d) (vt + netBonus)
      else stats
  | _, _ => stats
  end.

(** One iteration of a [derivations.forEach] loop. Trait-sourced rules
    ([accumulate = false]) overwrite the breakdown's [derivationBonus];
    character-level rules ([accumulate = true]) add to it. *)
Definition derivation_step (accumulate : bool) (snap : option snapshot)
  (acc : smap * bdmap) (d : derivation) : smap * bdmap :=
  let '(stats, bds) := acc in
  match smap_get stats (sourceStat d), smap_get stats (targetStat d) with
  | Some vs, Some _ =>
      let bonus := derivation_bonus vs (percent d) in
      let stats' := derive_stats snap stats d in
      let final := num_or (smap_get stats' (targetStat d)) 0 in
      (stats',
       bdmap_update bds (targetStat d) (fun b =>
         set_derivation
           (if accumulate then jsor (bd_derivationBonus b) 0 + bonus else bonus)
           final b))
  | _, _ => (stats, bds)
  end.

(** The first pass: every stat through the Delta Composer. *)
Definition first_pass (c : character) : smap * bdmap :=
  (map (fun s => (s, fst (calculateStatWithBreakdown s c))) ALL_STATS,
   map (fun s => (s, snd (calculateStatWithBreakdown s c))) ALL_STATS).

Definition calculateAllStats (c : character) : smap * bdmap :=
  let snapshot := snd (current_snapshot c) in
  let afterTraits :=
    fold_left (derivation_step false snapshot) (getStatDerivations (traits c))
      (first_pass c) in
  fold_left (derivation_step true snapshot) (statDerivations c) afterTraits.

(** ** Derived Resource Calculator: [calculateDerivedStats] *)

Record resource := { res_current : Q; res_max : Q }.
Record derived := { hp : resource; mp : resource }.

Definition calculateDerivedStats (finalStats : smap) (c : character) (bondedMana : Q)
  : derived :=
  let maxHp := num_or (smap_get finalStats "constitution") 0 * 10 in
  let maxMp := (num_or (smap_get finalStats "mana") 0 + bondedMana) * 10 in
  {| hp := {| res_current := Qmin (num_or (hp_current c) maxHp) maxHp; res_max := maxHp |};
     mp := {| res_current := Qmin (num_or (mp_current c) maxMp) maxMp; res_max := maxMp |} |}.

(** ** Bond Synchronizer ([CharacterContext.js]) *)

(** [syncedManaForMain]; [hasBond] is the configuration's [hasBond()]. *)
Definition syncedManaForMain (hasBond : bool) (companionFinalStats : smap) : Q :=
  let mana := num_or (smap_get companionFinalStats "mana") 0 in
  if negb hasBond || Qeq_bool mana 0 then 0
  else inject_Z (Math_round (mana / 2)).

(** The values the character context derives from the two stored characters. *)
Record context_view := {
  mainFinalStats : smap;
  companionFinalStats : smap;
  syncedMana : Q;
  mainDerivedStats : derived;
  companionDerivedStats : derived
}.

Definition character_context (hasBond : bool) (main companion : character) : context_view :=
  let mainStats := fst (calculateAllStats main) in
  let companionStats := fst (calculateAllStats companion) in
  let synced := syncedManaForMain hasBond companionStats in
  {| mainFinalStats := mainStats;
     companionFinalStats := companionStats;
     syncedMana := synced;
     mainDerivedStats := calculateDerivedStats mainStats main synced;
     companionDerivedStats := calculateDerivedStats companionStats companion 0 |}.

(** ** Snapshot capture: [handleTakeSnapshot] ([Valtherion.js]) *)

Definition with_levelSnapshots (c : character) (snaps : list (Z * snapshot)) : character :=
  {| level := level c; classHistory := classHistory c; levelSnapshots := snaps;
     freePoints := freePoints c; traits := traits c; titles := titles c;
     statBoosts := statBoosts c; statDerivations := statDerivations c;
     hp_current := hp_current c; mp_current := mp_current c |}.

(** [valStatBreakdowns[stat]?.field || d] *)
Definition bd_field_or (bds : bdmap) (s : string) (f : breakdown -> Q) (d : Q) : Q :=
  match bdmap_get bds s with Some b => jsor (f b) d | None => d end.

(** The snapshot taken from the current resolution of a character. *)
Definition take_snapshot (c : character) : snapshot :=
  let '(valFinalStats, valStatBreakdowns) := calculateAllStats c in
  let rawTitleBonuses := getTitleAdditiveBonuses (titles c) in
  let titleMultiplierBonuses := getTitleMultiplierBonuses (titles c) in
  let statBoostAdditiveBonuses := getStatBoostAdditiveBonuses (statBoosts c) in
  let statBoostMultiplierBonuses := getStatBoostMultiplierBonuses (statBoosts c) in
  let traitMult s := bd_field_or valStatBreakdowns s bd_traitMultiplier 1 in
  let traitMultipliers := map (fun s => (s, traitMult s)) ALL_STATS in
  let includedTitleBonuses :=
    map (fun s => (s, num_or (smap_get rawTitleBonuses s) 0 * traitMult s)) ALL_STATS in
  let includedDerivationBonuses :=
    map (fun s => (s, bd_field_or valStatBreakdowns s bd_derivationBonus 0)) ALL_STATS in
  {| snap_stats := Some valFinalStats;
     snap_direct := [];
     rawTitleBonuses := rawTitleBonuses;
     includedTraitMultipliers := traitMultipliers;
     includedTitleBonuses := includedTitleBonuses;
     includedTitleMultipliers := titleMultiplierBonuses;
     includedStatBoostBonuses := statBoostAdditiveBonuses;
     includedStatBoostMultipliers := statBoostMultiplierBonuses;
     includedDerivationBonuses := includedDerivationBonuses |}.

(** [handleTakeSnapshot]: store the snapshot under the current level. *)
Definition handleTakeSnapshot (c : character) : character :=
  with_levelSnapshots c (snap_put (levelSnapshots c) (level c) (take_snapshot c)).

(** ** Concrete characters used by the examples *)

Definition empty_character (lvl : Z) : character :=
  {| level := lvl; classHistory := []; levelSnapshots := []; freePoints := [];
     traits := []; titles := []; statBoosts := []; statDerivations := [];
     hp_current := None; mp_current := None |}.

Definition empty_snapshot (stats : smap) : snapshot :=
  {| snap_stats := Some stats; snap_direct := []; rawTitleBonuses := [];
     includedTraitMultipliers := []; includedTitleBonuses := [];
     includedTitleMultipliers := []; includedStatBoostBonuses := [];
     includedStatBoostMultipliers := []; includedDerivationBonuses := [] |}.

(** The growth phase [{startLevel:5, endLevel:10, perLevelDeltas:{strength:2}}]. *)
Definition phase_5_10 : growth_class :=
  {| cls_name := "phase"; startLevel := 5; endLevel := Some 10%Z;
     statsPerLevel := [("strength", 2)]%string |}.

Definition growth_char (lvl : Z) (snaps : list (Z * snapshot)) : character :=
  {| level := lvl; classHistory := [phase_5_10]; levelSnapshots := snaps;
     freePoints := []; traits := []; titles := []; statBoosts := [];
     statDerivations := []; hp_current := None; mp_current := None |}.

Definition stat_of (c : character) (s : string) : option Q :=
  smap_get (fst (calculateAllStats c)) s.

(** [cls.startLevel || 1] *)
Definition phase_start (cls : growth_class) : Z :=
  if (startLevel cls =? 0)%Z then 1%Z else startLevel cls.

(** Number of levels of [[snapshotLevel+1, currentLevel]] inside
    [[phase_start+1, endLevel ?? oo]] (nonpositive when they do not overlap). *)
Definition overlap_levels (currentLevel snapshotLevel : Z) (cls : growth_class) : Z :=
  (match endLevel cls with None => currentLevel | Some e => Z.min currentLevel e end
   - Z.max (snapshotLevel + 1) (phase_start cls + 1) + 1)%Z.

(** The growth of the amended statement: the per-level delta times the number
    of levels of [[sl+1, level]] inside [[(startLevel || 1)+1, endLevel ?? oo]],
    summed over the phases whose delta for the stat is positive. *)
Definition growth_sum (currentLevel snapshotLevel : Z) (statName : string)
  (history : list growth_class) : Q :=
  fold_right (fun cls acc =>
      (let delta := num_or (smap_get (statsPerLevel cls) statName) 0 in
       if Qltb 0 delta
       then delta * inject_Z (Z.max 0 (overlap_levels currentLevel snapshotLevel cls))
       else 0) + acc)
    0 history.

(** The C2 scenario: a snapshot at level 1 recorded raw title additive 5 on
    strength under trait multiplier 1; a trait multiplying strength by 2 was
    acquired since, the titles are unchanged. *)
Definition c2_snapshot : snapshot :=
  {| snap_stats := Some [("strength", 10)]%string; snap_direct := [];
     rawTitleBonuses := [("strength", 5)]%string;
     includedTraitMultipliers := [("strength", 1)]%string;
     includedTitleBonuses := [("strength", 5)]%string;
     includedTitleMultipliers := []; includedStatBoostBonuses := [];
     includedStatBoostMultipliers := []; includedDerivationBonuses := [] |}.

Definition strength_title (a : Q) : title :=
  {| title_name := "title"; title_enabled := true;
     title_bonuses := [{| b_stat := "strength"; b_additive := a; b_value := 0;
                          b_multiplier := 0 |}] |}%string.

Definition c2_char (a : Q) : character :=
  {| level := 1; classHistory := []; levelSnapshots := [(1%Z, c2_snapshot)];
     freePoints := [];
     traits := [{| trait_name := "trait"; effects := [StatMultiplier "strength" 2] |}];
     titles := [strength_title a]; statBoosts := []; statDerivations := [];
     hp_current := None; mp_current := None |}%string.

(** The C5 scenario: a trait redirecting free points to mana, level 4, no snapshot. *)
Definition c5_char (fp : smap) : character :=
  {| level := 4; classHistory := []; levelSnapshots := []; freePoints := fp;
     traits := [{| trait_name := "will"; effects := [RedirectFreePoints "mana"] |}];
     titles := []; statBoosts := []; statDerivations := [];
     hp_current := None; mp_current := None |}%string.

(** The C8 scenario: a stored current HP of 0. *)
Definition c8_char : character :=
  {| level := 1; classHistory := []; levelSnapshots := []; freePoints := [];
     traits := []; titles := []; statBoosts := []; statDerivations := [];
     hp_current := Some 0; mp_current := None |}.

(** The C3 scenarios: manual free points on strength; two derivation rules
    with different percents on the same target. *)
Definition c3_free_points_char : character :=
  {| level := 1; classHistory := []; levelSnapshots := [];
     freePoints := [("strength", 5)]%string;
     traits := []; titles := []; statBoosts := []; statDerivations := [];
     hp_current := None; mp_current := None |}.

Definition c3_derivation_char : character :=
  {| level := 1; classHistory := [];
     levelSnapshots := [(1%Z, empty_snapshot [("willpower", 100)]%string)];
     freePoints := [];
     traits := [{| trait_name := "insight";
                   effects := [StatDerivation "willpower" "intellect" 25;
                               StatDerivation "willpower" "intellect" 10] |}];
     titles := []; statBoosts := []; statDerivations := [];
     hp_current := None; mp_current := None |}%string.

(** The C7 scenario: willpower resolves to 100, a 25% willpower -> intellect
    rule, and a snapshot that already included a derivation bonus of 10 on
    intellect. *)
Definition c7_char : character :=
  {| level := 1; classHistory := [];
     levelSnapshots :=
       [(1%Z, {| snap_stats := Some [("willpower", 100)]; snap_direct := [];
                 rawTitleBonuses := []; includedTraitMultipliers := [];
                 includedTitleBonuses := []; includedTitleMultipliers := [];
                 includedStatBoostBonuses := []; includedStatBoostMultipliers := [];
                 includedDerivationBonuses := [("intellect", 10)] |})];
     freePoints := [];
     traits := [{| trait_name := "insight";
                   effects := [StatDerivation "willpower" "intellect" 25] |}];
     titles := []; statBoosts := []; statDerivations := [];
     hp_current := None; mp_current := None |}%string.

(** Willpower resolves to 100 and a trait adds 29% of it to intellect; no
    snapshot ledger. *)
Definition c7_char29 : character :=
  {| level := 1; classHistory := [];
     levelSnapshots :=
       [(1%Z, {| snap_stats := Some [("willpower", 100)]; snap_direct := [];
                 rawTitleBonuses := []; includedTraitMultipliers := [];
                 includedTitleBonuses := []; includedTitleMultipliers := [];
                 includedStatBoostBonuses := []; includedStatBoostMultipliers := [];
                 includedDerivationBonuses := [] |})];
     freePoints := [];
     traits := [{| trait_name := "insight";
                   effects := [StatDerivation "willpower" "intellect" 29] |}];
     titles := []; statBoosts := []; statDerivations := [];
     hp_current := None; mp_current := None |}%string.

(** ** Vocabulary of the monotonicity statement (C4) *)

Definition with_titles (c : character) (ts : list title) : character :=
  {| level := level c; classHistory := classHistory c; levelSnapshots := levelSnapshots c;
     freePoints := freePoints c; traits := traits c; titles := ts;
     statBoosts := statBoosts c; statDerivations := statDerivations c;
     hp_current := hp_current c; mp_current := mp_current c |}.

Definition with_statBoosts (c : character) (bs : list statBoost) : character :=
  {| level := level c; classHistory := classHistory c; levelSnapshots := levelSnapshots c;
     freePoints := freePoints c; traits := traits c; titles := titles c;
     statBoosts := bs; statDerivations := statDerivations c;
     hp_current := hp_current c; mp_current := mp_current c |}.

Definition bump_bonus (b : bonus) (a : Q) : bonus :=
  {| b_stat := b_stat b; b_additive := a; b_value := b_value b;
     b_multiplier := b_multiplier b |}.

(** The character whose title [t] (between [tpre] and [tpost]) has its bonus
    entry [b] (between [bpre] and [bpost]) given the additive value [a]. *)
Definition bump_title_entry (c : character) (tpre : list title) (t : title)
  (tpost : list title) (bpre : list bonus) (b : bonus) (bpost : list bonus) (a : Q)
  : character :=
  with_titles c
    (tpre ++ {| title_name := title_name t; title_enabled := title_enabled t;
                title_bonuses := bpre ++ bump_bonus b a :: bpost |} :: tpost).

Definition bump_boost (b : statBoost) (a : Q) : statBoost :=
  {| boost_description := boost_description b; boost_stat := boost_stat b;
     boost_additive := a; boost_multiplier := boost_multiplier b;
     boost_enabled := boost_enabled b |}.

Definition bump_boost_entry (c : character) (bpre : list statBoost) (b : statBoost)
  (bpost : list statBoost) (a : Q) : character :=
  with_statBoosts c (bpre ++ bump_boost b a :: bpost).

(** Whether step 9 takes the raw-title early-out (net title additive 0). *)
Definition title_early_out (bd : breakdown) : bool :=
  (Qltb 0 (bd_snapshotRawTitleAdditive bd)
   || negb (Qeq_bool (bd_snapshotTraitMultiplier bd) 1))
  && Qeq_bool (bd_titleAdditive bd) (bd_snapshotRawTitleAdditive bd).

Definition derivation_percents_nonneg (c : character) : Prop :=
  forall d, In d (getStatDerivations (traits c) ++ statDerivations c) -> 0 <= percent d.

(** Pointwise order of two stat maps with the same keys in the same order. *)
Definition stats_le (m1 m2 : smap) : Prop :=
  map fst m1 = map fst m2
  /\ forall k v1 v2, smap_get m1 k = Some v1 -> smap_get m2 k = Some v2 -> v1 <= v2.

(** The bonus loops as one fold over the entries that count. *)
Definition add_all {A} (key : A -> string) (val : A -> Q) (xs : list A) (m : smap) : smap :=
  fold_left (fun m x => smap_add_if m (key x) (val x)) xs m.

Definition sum_for {A} (key : A -> string) (val : A -> Q) (xs : list A) (s : string) : Q :=
  fold_right (fun x acc => (if String.eqb (key x) s then val x else 0) + acc) 0 xs.

Definition enabled_bonuses (ts : list title) : list bonus :=
  flat_map (fun t => if title_enabled t then title_bonuses t else []) ts.

Definition enabled_boosts (bs : list statBoost) : list statBoost :=
  filter boost_enabled bs.

(** The net title additive bonus of step 9, read back from a breakdown. *)
Definition bd_netTitleAdditive (bd : breakdown) : Q :=
  netTitleAdditive_of (bd_titleAdditive bd) (bd_traitMultiplier bd)
    (bd_titleAdditiveAfterTrait bd) (bd_snapshotRawTitleAdditive bd)
    (bd_snapshotTraitMultiplier bd) (bd_snapshotIncludedTitleAdditive bd).

(** A level-1 character with no snapshot, a title granting 1 strength and an
    enabled boost granting 1 strength. *)
Definition strength_bonus (a : Q) : bonus :=
  {| b_stat := "strength"; b_additive := a; b_value := 0; b_multiplier := 0 |}%string.

Definition strength_boost (a : Q) : statBoost :=
  {| boost_description := "boost"; boost_stat := "strength"; boost_additive := a;
     boost_multiplier := 0; boost_enabled := true |}%string.

Definition c4_char : character :=
  {| level := 1; classHistory := []; levelSnapshots := []; freePoints := [];
     traits := []; titles := [strength_title 1]; statBoosts := [strength_boost 1];
     statDerivations := []; hp_current := None; mp_current := None |}.

(** ** Further code of the calculator and of its callers *)

(** [getCurrentClass]: the loop's test [level >= (startLevel || 0) &&
    level <= (endLevel || Infinity)]. *)
Definition class_covers (lvl : Z) (cls : growth_class) : bool :=
  let start := startLevel cls in
  (start <=? lvl)%Z
  && match endLevel cls with
     | None => true
     | Some e => if (e =? 0)%Z then true else (lvl <=? e)%Z
     end.

Definition getCurrentClass (classHistory : list growth_class) (lvl : Z)
  : option growth_class :=
  match classHistory with
  | [] => None
  | cls0 :: _ =>
      match find (class_covers lvl) classHistory with
      | Some cls => Some cls
      | None => Some (last classHistory cls0)
      end
  end.

(** [syncedWillpowerForCompanion] of [CharacterContext.js]. *)
Definition syncedWillpowerForCompanion (hasBond : bool) (mainFinalStats : smap) : Q :=
  let willpower := num_or (smap_get mainFinalStats "willpower") 0 in
  if negb hasBond || Qeq_bool willpower 0 then 0
  else inject_Z (Math_round (willpower / 2)).

(** [calculateSnapshotStats]: the base is read as
    [levelSnapshots[snapshotLevel][statName]], a top-level field of the
    snapshot object. *)
Definition calculateSnapshotStats (c : character) : smap :=
  let snapshotLevel := getMostRecentSnapshotLevel (levelSnapshots c) (level c) in
  let redirected := getRedirectedFreePoints (traits c) (level c) (from_level snapshotLevel) in
  map (fun statName =>
    let snapshotBase :=
      match snapshotLevel with
      | Some l =>
          match snap_lookup (levelSnapshots c) l with
          | Some sn => num_or (smap_get (snap_direct sn) statName) 0
          | None => 0
          end
      | None => 0
      end in
    let redirectedFreePoints :=
      match fst redirected with
      | Some t => if String.eqb t statName then snd redirected else 0
      | None => 0
      end in
    let classScaling := calculateClassScaling c statName snapshotLevel in
    let fp :=
      match fst redirected with
      | None => num_or (smap_get (freePoints c) statName) 0
      | Some t => if String.eqb t statName
                  then num_or (smap_get (freePoints c) statName) 0 else 0
      end in
    let totalGains := redirectedFreePoints + classScaling + fp in
    let traitMultiplier := getTraitMultiplier (traits c) statName in
    let gainsAfterTrait := totalGains * traitMultiplier in
    (statName, inject_Z (Math_round (snapshotBase + gainsAfterTrait)))) ALL_STATS.

(** The top-level stat value of the applicable snapshot, as
    [calculateSnapshotStats] reads it. *)
Definition snapshot_direct_base (c : character) (statName : string) : Q :=
  match getMostRecentSnapshotLevel (levelSnapshots c) (level c) with
  | Some l =>
      match snap_lookup (levelSnapshots c) l with
      | Some sn => num_or (smap_get (snap_direct sn) statName) 0
      | None => 0
      end
  | None => 0
  end.

(** [SnapshotDialog] of [Valtherion.js]: the values it is opened with. *)
Definition snapshot_dialog_stats (currentSnapshot : option snapshot) : smap :=
  map (fun stat => (stat, match currentSnapshot with
                          | Some sn => getSnapshotStatValue sn stat
                          | None => 0
                          end)) ALL_STATS.

(** The plain object [{strength: .., ...}] the dialog saves. *)
Definition flat_snapshot (stats : smap) : snapshot :=
  {| snap_stats := None; snap_direct := stats; rawTitleBonuses := [];
     includedTraitMultipliers := []; includedTitleBonuses := [];
     includedTitleMultipliers := []; includedStatBoostBonuses := [];
     includedStatBoostMultipliers := []; includedDerivationBonuses := [] |}.

(** [handleSaveSnapshot(level, stats)]. *)
Definition handleSaveSnapshot (c : character) (lvl : Z) (stats : smap) : character :=
  with_levelSnapshots c (snap_put (levelSnapshots c) lvl (flat_snapshot stats)).

(** [delete snapshots[level]] *)
Fixpoint snap_delete (snaps : list (Z * snapshot)) (lvl : Z) : list (Z * snapshot) :=
  match snaps with
  | [] => []
  | (k, s) :: r => if (k =? lvl)%Z then snap_delete r lvl else (k, s) :: snap_delete r lvl
  end.

(** [handleDeleteSnapshot(level)]. *)
Definition handleDeleteSnapshot (c : character) (lvl : Z) : character :=
  with_levelSnapshots c (snap_delete (levelSnapshots c) lvl).

(** [arr.filter((_, i) => i !== index)], [i] counting from [start]. *)
Fixpoint filter_index {A} (index start : nat) (l : list A) : list A :=
  match l with
  | [] => []
  | x :: r =>
      if Nat.eqb start index then filter_index index (S start) r
      else x :: filter_index index (S start) r
  end.

(** [arr[index] = x] on a copy, for an index inside the array. *)
Fixpoint list_set {A} (l : list A) (index : nat) (x : A) : list A :=
  match l, index with
  | [], _ => []
  | _ :: r, O => x :: r
  | y :: r, S i => y :: list_set r i x
  end.

(** [handleDeleteBoost(index)]. *)
Definition handleDeleteBoost (c : character) (index : nat) : character :=
  with_statBoosts c (filter_index index 0 (statBoosts c)).

(** [handleToggleBoost(index)]; [None] when [boosts[index]] is [undefined]
    (reading its [enabled] field throws). *)
Definition handleToggleBoost (c : character) (index : nat) : option character :=
  match nth_error (statBoosts c) index with
  | None => None
  | Some b =>
      let currentEnabled := boost_enabled b in
      Some (with_statBoosts c
              (list_set (statBoosts c) index
                 {| boost_description := boost_description b; boost_stat := boost_stat b;
                    boost_additive := boost_additive b;
                    boost_multiplier := boost_multiplier b;
                    boost_enabled := negb currentEnabled |}))
  end.

(** ** Character updates of [CharacterContext.js] and [Valtherion.js] *)

(** [{ ...m, [k]: v }]: an existing key keeps its place, a new one goes last. *)
Fixpoint smap_assign (m : smap) (k : string) (v : Q) : smap :=
  match m with
  | [] => [(k, v)]
  | (k', v') :: r => if String.eqb k k' then (k', v) :: r else (k', v') :: smap_assign r k v
  end.

Definition with_freePoints (c : character) (fp : smap) : character :=
  {| level := level c; classHistory := classHistory c; levelSnapshots := levelSnapshots c;
     freePoints := fp; traits := traits c; titles := titles c;
     statBoosts := statBoosts c; statDerivations := statDerivations c;
     hp_current := hp_current c; mp_current := mp_current c |}.

(** [updateMainFreePoints(statName, value)], [value] already a number:
    [freePoints: { ...prev.freePoints, [statName]: Number(value) || 0 }]. *)
Definition updateMainFreePoints (c : character) (statName : string) (value : Q) : character :=
  with_freePoints c (smap_assign (freePoints c) statName (jsor value 0)).

Definition with_classHistory (c : character) (ch : list growth_class) : character :=
  {| level := level c; classHistory := ch; levelSnapshots := levelSnapshots c;
     freePoints := freePoints c; traits := traits c; titles := titles c;
     statBoosts := statBoosts c; statDerivations := statDerivations c;
     hp_current := hp_current c; mp_current := mp_current c |}.

(** One step of a stable insertion: [x] goes after the entries whose
    [startLevel] is not greater than its own. *)
Fixpoint insert_by_start (x : growth_class) (l : list growth_class) : list growth_class :=
  match l with
  | [] => [x]
  | y :: r => if (startLevel x <? startLevel y)%Z then x :: y :: r
              else y :: insert_by_start x r
  end.

(** [history.sort((a, b) => a.startLevel - b.startLevel)] on numeric
    [startLevel]s: [Array.prototype.sort] is stable, so its result is the
    stable insertion sort of the array. *)
Definition sort_by_start (l : list growth_class) : list growth_class :=
  fold_left (fun acc x => insert_by_start x acc) l [].

(** [handleSaveEvolution(evolutionData)]: replace the entry being edited
    ([editingEvolutionIndex >= 0], an index inside the array) or append a new
    one, then sort by [startLevel]. *)
Definition handleSaveEvolution (c : character) (editingEvolutionIndex : Z)
  (evolutionData : growth_class) : character :=
  let history := classHistory c in
  let history' :=
    if (0 <=? editingEvolutionIndex)%Z
    then list_set history (Z.to_nat editingEvolutionIndex) evolutionData
    else history ++ [evolutionData] in
  with_classHistory c (sort_by_start history').

(** [handleDeleteEvolution(index)]. *)
Definition handleDeleteEvolution (c : character) (index : nat) : character :=
  with_classHistory c (filter_index index 0 (classHistory c)).

(** Every resolved stat has a breakdown whose [final] shows its value. *)
Definition bd_consistent (p : smap * bdmap) : Prop :=
  forall k v, smap_get (fst p) k = Some v ->
              exists b, bdmap_get (snd p) k = Some b /\ bd_final b == v.

(** ** The context's state and its updaters ([CharacterContext.js]) *)

Definition with_level (c : character) (l : Z) : character :=
  {| level := l; classHistory := classHistory c; levelSnapshots := levelSnapshots c;
     freePoints := freePoints c; traits := traits c; titles := titles c;
     statBoosts := statBoosts c; statDerivations := statDerivations c;
     hp_current := hp_current c; mp_current := mp_current c |}.

Definition with_traits (c : character) (ts : list trait) : character :=
  {| level := level c; classHistory := classHistory c; levelSnapshots := levelSnapshots c;
     freePoints := freePoints c; traits := ts; titles := titles c;
     statBoosts := statBoosts c; statDerivations := statDerivations c;
     hp_current := hp_current c; mp_current := mp_current c |}.

Definition with_statDerivations (c : character) (ds : list derivation) : character :=
  {| level := level c; classHistory := classHistory c; levelSnapshots := levelSnapshots c;
     freePoints := freePoints c; traits := traits c; titles := titles c;
     statBoosts := statBoosts c; statDerivations := ds;
     hp_current := hp_current c; mp_current := mp_current c |}.

(** A record with every field missing: each is read as empty. *)
Definition blank_character : character :=
  {| level := 0; classHistory := []; levelSnapshots := []; freePoints := [];
     traits := []; titles := []; statBoosts := []; statDerivations := [];
     hp_current := None; mp_current := None |}.

(** [Number(level) || 1] on a numeric level. *)
Definition level_or_1 (l : Z) : Z := if (l =? 0)%Z then 1%Z else l.

(** The [main] and [companion] state of the provider (the dirty flag, the
    notifications and the configuration are left out). *)
Record ctx_state := { st_main : character; st_companion : option character }.

(** The state updates the provider exposes. An object patch
    [{...prev, ...updates}] is the function it applies to [prev]. *)
Inductive ctx_op :=
| UpdateMain (updates : character -> character)
| UpdateMainFreePoints (statName : string) (value : Q)
| UpdateMainLevel (lvl : Z)
| UpdateMainClassHistory (h : list growth_class)
| UpdateMainLevelSnapshots (snaps : list (Z * snapshot))
| UpdateMainTitles (ts : list title)
| UpdateMainTraits (ts : list trait)
| UpdateMainStatDerivations (ds : list derivation)
| UpdateCompanion (updates : option character -> option character)
| UpdateCompanionFreePoints (statName : string) (value : Q)
| UpdateCompanionLevel (lvl : Z)
| LoadSnapshot (main : character) (companion : option character).

Definition is_companion_op (op : ctx_op) : bool :=
  match op with
  | UpdateCompanion _ | UpdateCompanionFreePoints _ _ | UpdateCompanionLevel _ => true
  | _ => false
  end.

Definition set_main (st : ctx_state) (m : character) : ctx_state :=
  {| st_main := m; st_companion := st_companion st |}.

Definition set_companion (st : ctx_state) (c : option character) : ctx_state :=
  {| st_main := st_main st; st_companion := c |}.

(** One update, with [hasCompanion()] of the configuration. [None] is the
    [TypeError] of [prev.freePoints] on a null companion. *)
Definition ctx_step (hasCompanion : bool) (st : ctx_state) (op : ctx_op)
  : option ctx_state :=
  let m := st_main st in
  match op with
  | UpdateMain f => Some (set_main st (f m))
  | UpdateMainFreePoints s v => Some (set_main st (updateMainFreePoints m s v))
  | UpdateMainLevel l => Some (set_main st (with_level m (level_or_1 l)))
  | UpdateMainClassHistory h => Some (set_main st (with_classHistory m h))
  | UpdateMainLevelSnapshots sn => Some (set_main st (with_levelSnapshots m sn))
  | UpdateMainTitles ts => Some (set_main st (with_titles m ts))
  | UpdateMainTraits ts => Some (set_main st (with_traits m ts))
  | UpdateMainStatDerivations ds => Some (set_main st (with_statDerivations m ds))
  | UpdateCompanion f =>
      if hasCompanion then Some (set_companion st (f (st_companion st))) else Some st
  | UpdateCompanionFreePoints s v =>
      if hasCompanion then
        match st_companion st with
        | Some c => Some (set_companion st (Some (updateMainFreePoints c s v)))
        | None => None
        end
      else Some st
  | UpdateCompanionLevel l =>
      if hasCompanion then
        let prev := match st_companion st with Some c => c | None => blank_character end in
        Some (set_companion st (Some (with_level prev (level_or_1 l))))
      else Some st
  | LoadSnapshot mn cp =>
      Some {| st_main := mn;
              st_companion := if hasCompanion then cp else st_companion st |}
  end.

Fixpoint ctx_run (hasCompanion : bool) (st : ctx_state) (ops : list ctx_op)
  : option ctx_state :=
  match ops with
  | [] => Some st
  | op :: rest =>
      match ctx_step hasCompanion st op with
      | Some st' => ctx_run hasCompanion st' rest
      | None => None
      end
  end.

Definition zero_derived : derived :=
  {| hp := {| res_current := 0; res_max := 0 |};
     mp := {| res_current := 0; res_max := 0 |} |}.

(** The calculated values of the provider for a state: [companionCalculation]
    is empty when there is no companion. *)
Definition ctx_view (hasBond : bool) (st : ctx_state) : context_view :=
  let mainStats := fst (calculateAllStats (st_main st)) in
  let companionStats :=
    match st_companion st with Some c => fst (calculateAllStats c) | None => [] end in
  let synced := syncedManaForMain hasBond companionStats in
  {| mainFinalStats := mainStats;
     companionFinalStats := companionStats;
     syncedMana := synced;
     mainDerivedStats := calculateDerivedStats mainStats (st_main st) synced;
     companionDerivedStats :=
       match st_companion st with
       | Some c => calculateDerivedStats companionStats c 0
       | None => zero_derived
       end |}.

(** A level-1 character with the given manual free points. *)
Definition fp_char (fp : smap) : character :=
  {| level := 1; classHistory := []; levelSnapshots := []; freePoints := fp;
     traits := []; titles := []; statBoosts := []; statDerivations := [];
     hp_current := None; mp_current := None |}.

Definition bond_state : ctx_state :=
  {| st_main := fp_char [("mana", 5)]%string;
     st_companion := Some (fp_char [("mana", 0)]%string) |}.

(** ** The snapshot dialog as [Valtherion.js] opens it *)

(** [currentSnapshot={editingSnapshotLevel ? valtherion.levelSnapshots?.[editingSnapshotLevel] : null}];
    [editingSnapshotLevel] is [null] ([None]) for a new snapshot and
    [Number(level)] of the edited row otherwise. *)
Definition dialog_current_snapshot (c : character) (editingSnapshotLevel : option Z)
  : option snapshot :=
  match editingSnapshotLevel with
  | Some l => if (l =? 0)%Z then None else snap_lookup (levelSnapshots c) l
  | None => None
  end.

(** The dialog's [snapshotLevel] when opened with [level={editingSnapshotLevel}]:
    [level || 1]. *)
Definition dialog_save_level (editingSnapshotLevel : option Z) : Z :=
  match editingSnapshotLevel with Some l => level_or_1 l | None => 1%Z end.

(** Opening the dialog and pressing save without touching a field:
    [onSave(snapshotLevel, stats)] with the initial values. *)
Definition snapshot_dialog_save (c : character) (editingSnapshotLevel : option Z)
  : character :=
  handleSaveSnapshot c (dialog_save_level editingSnapshotLevel)
    (snapshot_dialog_stats (dialog_current_snapshot c editingSnapshotLevel)).

(** * Lemmas *)

Lemma jsor_0 (x : Q) : jsor x 0 == x.
Proof.
  unfold jsor. destruct (Qeq_bool x 0) eqn:E; [|reflexivity].
  apply Qeq_bool_eq in E. now rewrite E.
Qed.

Lemma Qltb_true (x y : Q) : Qltb x y = true <-> x < y.
Proof.
  unfold Qltb. rewrite negb_true_iff. split.
  - intros H. apply Qnot_le_lt. intros H'. apply Qle_bool_iff in H'. congruence.
  - intros H. destruct (Qle_bool y x) eqn:E; [|reflexivity].
    apply Qle_bool_iff in E. exfalso. apply (Qlt_not_le x y); assumption.
Qed.

Lemma Qltb_false (x y : Q) : Qltb x y = false <-> y <= x.
Proof.
  unfold Qltb. rewrite negb_false_iff. apply Qle_bool_iff.
Qed.

Lemma fold_sum_nonneg {A} (f : A -> Q) (l : list A) (acc : Q) :
  0 <= acc -> (forall x, In x l -> 0 <= f x) ->
  0 <= fold_left (fun t x => t + f x) l acc.
Proof.
  revert acc. induction l as [|x l IH]; intros acc Hacc Hf; simpl; [assumption|].
  apply IH.
  - specialize (Hf x (or_introl eq_refl)). lra.
  - intros y Hy. apply Hf. now right.
Qed.

Lemma fold_sum_zero {A} (f : A -> Q) (l : list A) (acc : Q) :
  (forall x, In x l -> f x == 0) -> fold_left (fun t x => t + f x) l acc == acc.
Proof.
  revert acc. induction l as [|x l IH]; intros acc Hf; simpl; [reflexivity|].
  rewrite IH.
  - rewrite (Hf x (or_introl eq_refl)). ring.
  - intros y Hy. apply Hf. now right.
Qed.

Lemma class_contribution_nonneg lvl sl s cls : 0 <= class_contribution lvl sl s cls.
Proof.
  unfold class_contribution.
  destruct ((_ <=? _)%Z && _) eqn:E; [|lra].
  apply andb_true_iff in E as [E1 E2].
  apply Z.leb_le in E1. apply Qltb_true in E2.
  apply Qmult_le_0_compat; [lra|].
  change 0 with (inject_Z 0). rewrite <- Zle_Qle. lia.
Qed.

Lemma class_contribution_nonpos_delta lvl sl s cls :
  num_or (smap_get (statsPerLevel cls) s) 0 <= 0 -> class_contribution lvl sl s cls = 0.
Proof.
  intros H. unfold class_contribution.
  assert (Qltb 0 (num_or (smap_get (statsPerLevel cls) s) 0) = false) as ->
    by (apply Qltb_false; exact H).
  now rewrite andb_false_r.
Qed.

Lemma class_contribution_no_overlap lvl sl s cls :
  (overlap_levels lvl sl cls <= 0)%Z -> class_contribution lvl sl s cls = 0.
Proof.
  unfold overlap_levels, class_contribution, phase_start. intros H.
  assert (E : (Z.max (sl + 1) ((if (startLevel cls =? 0)%Z then 1%Z else startLevel cls) + 1)
     <=? match endLevel cls with Some e => Z.min lvl e | None => lvl end)%Z = false)
    by (apply Z.leb_gt; lia).
  now rewrite E.
Qed.

Lemma calculateClassScaling_nonneg c s sl : 0 <= calculateClassScaling c s sl.
Proof.
  unfold calculateClassScaling.
  destruct (classHistory c) as [|cls cs]; [lra|].
  destruct sl as [sl|]; [|lra].
  apply fold_sum_nonneg; [lra|]. intros. apply class_contribution_nonneg.
Qed.

Lemma bd_classScaling_eq s c :
  bd_classScaling (snd (calculateStatWithBreakdown s c))
  = calculateClassScaling c s (fst (current_snapshot c)).
Proof.
  unfold calculateStatWithBreakdown.
  destruct (current_snapshot c) as [sl [sn|]]; reflexivity.
Qed.

Lemma Math_round_comp (x y : Q) : x == y -> Math_round x = Math_round y.
Proof. intros H. unfold Math_round. apply Qfloor_comp. now rewrite H. Qed.

Lemma Math_round_mono (x y : Q) : x <= y -> inject_Z (Math_round x) <= inject_Z (Math_round y).
Proof.
  intros H. rewrite <- Zle_Qle. unfold Math_round. apply Qfloor_resp_le. lra.
Qed.

(** How the Delta Composer's breakdown fields combine (steps 9 to 12). *)
Lemma calc_shape s c :
  let bd := snd (calculateStatWithBreakdown s c) in
  bd_preFinalValue bd = bd_snapshotBase bd + bd_gainsAfterTrait bd
    + netTitleAdditive_of (bd_titleAdditive bd) (bd_traitMultiplier bd)
        (bd_titleAdditiveAfterTrait bd) (bd_snapshotRawTitleAdditive bd)
        (bd_snapshotTraitMultiplier bd) (bd_snapshotIncludedTitleAdditive bd)
    + (bd_statBoostAdditive bd - bd_snapshotIncludedBoostAdditive bd)
  /\ bd_titleAdditiveAfterTrait bd = bd_titleAdditive bd * bd_traitMultiplier bd
  /\ bd_titleMultiplierEnhanced bd =
       (30 <=? level c)%Z && Qltb 1 (bd_traitMultiplier bd)
       && Qltb 0 (bd_titleMultiplier bd - bd_snapshotIncludedTitleMultiplier bd)
  /\ bd_effectiveTitleMultiplier bd =
       (if bd_titleMultiplierEnhanced bd
        then (bd_titleMultiplier bd - bd_snapshotIncludedTitleMultiplier bd)
             * bd_traitMultiplier bd
        else bd_titleMultiplier bd - bd_snapshotIncludedTitleMultiplier bd)
  /\ fst (calculateStatWithBreakdown s c) =
       inject_Z (Math_round
         (let total := bd_effectiveTitleMultiplier bd
                       + (bd_statBoostMultiplier bd - bd_snapshotIncludedBoostMultiplier bd) in
          if Qltb 0 total then bd_preFinalValue bd * (1 + total) else bd_preFinalValue bd))
  /\ bd_final bd = fst (calculateStatWithBreakdown s c).
Proof.
  unfold calculateStatWithBreakdown.
  destruct (current_snapshot c) as [sl [sn|]]; repeat split.
Qed.

(** * Claims *)

Lemma fold_sum_right {A} (f : A -> Q) (l : list A) :
  fold_left (fun t x => t + f x) l 0 == fold_right (fun x acc => f x + acc) 0 l.
Proof.
  assert (G : forall a, fold_left (fun t x => t + f x) l a
                        == a + fold_right (fun x acc => f x + acc) 0 l).
  { induction l as [|x l IH]; intros a; simpl; [ring|]. rewrite IH. ring. }
  rewrite G. ring.
Qed.

Lemma class_contribution_growth lvl sl s cls :
  class_contribution lvl sl s cls
  == (let delta := num_or (smap_get (statsPerLevel cls) s) 0 in
      if Qltb 0 delta
      then delta * inject_Z (Z.max 0 (overlap_levels lvl sl cls))
      else 0).
Proof.
  unfold class_contribution, overlap_levels, phase_start. cbv zeta.
  set (e := match endLevel cls with Some e => Z.min lvl e | None => lvl end).
  set (b := Z.max (sl + 1) ((if (startLevel cls =? 0)%Z then 1%Z else startLevel cls) + 1)).
  destruct (Qltb 0 (num_or (smap_get (statsPerLevel cls) s) 0)); rewrite ?andb_true_r, ?andb_false_r;
    [|reflexivity].
  destruct (b <=? e)%Z eqn:E.
  - apply Z.leb_le in E. rewrite Z.max_r by lia. reflexivity.
  - apply Z.leb_gt in E. rewrite Z.max_l by lia. simpl. ring.
Qed.

Lemma growth_sum_terms lvl sl s cs :
  fold_right (fun x acc => class_contribution lvl sl s x + acc) 0 cs
  == growth_sum lvl sl s cs.
Proof.
  induction cs as [|cls cs IH]; simpl; [reflexivity|].
  rewrite IH, class_contribution_growth. reflexivity.
Qed.

(** C1 (counterexample): with one growth phase
    [{startLevel:5, endLevel:10, perLevelDeltas:{strength:2}}] and no snapshot,
    the strength growth at level 10 is 0, not 10: the resolver returns 0
    whenever no snapshot applies. *)
Lemma C1_growth_without_snapshot_cex :
  bd_classScaling (snd (calculateStatWithBreakdown "strength" (growth_char 10 []))) == 0
  /\ ~ bd_classScaling (snd (calculateStatWithBreakdown "strength" (growth_char 10 []))) == 10.
Proof. vm_compute. split; [reflexivity | intros H; discriminate H]. Qed.

(** C1 (amended): the growth contribution is 0 whenever no snapshot applies;
    with a snapshot at level [sl] it is the sum, over the phases whose
    per-level delta for the stat is positive, of that delta times the number of
    levels of [[sl+1, level]] inside [[(startLevel || 1)+1, endLevel ?? oo]]
    ([growth_sum]); so it is 0 when every phase has a nonpositive delta or no
    overlap; with a snapshot at level 0 the example phase yields 10 at level 10
    and 0 at level 5. *)
Theorem C1_growth_amended :
  (forall c s, calculateClassScaling c s None = 0)
  /\ (forall c s sl,
        (forall cls, In cls (classHistory c) ->
           num_or (smap_get (statsPerLevel cls) s) 0 <= 0
           \/ (overlap_levels (level c) sl cls <= 0)%Z) ->
        calculateClassScaling c s (Some sl) == 0)
  /\ bd_classScaling (snd (calculateStatWithBreakdown "strength"
        (growth_char 10 [(0%Z, empty_snapshot [])]))) == 10
  /\ bd_classScaling (snd (calculateStatWithBreakdown "strength"
        (growth_char 5 [(0%Z, empty_snapshot [])]))) == 0
  /\ (forall c s sl,
        calculateClassScaling c s (Some sl) == growth_sum (level c) sl s (classHistory c)).
Proof.
  split; [|split; [|split; [|split]]].
  - intros c s. unfold calculateClassScaling. now destruct (classHistory c).
  - intros c s sl H. unfold calculateClassScaling.
    destruct (classHistory c) as [|cls0 cs] eqn:E; [reflexivity|].
    rewrite fold_sum_zero; [reflexivity|].
    intros cls Hin.
    destruct (H cls Hin) as [Hd|Ho].
    + now rewrite class_contribution_nonpos_delta.
    + now rewrite class_contribution_no_overlap.
  - vm_compute. reflexivity.
  - vm_compute. reflexivity.
  - intros c s sl. unfold calculateClassScaling.
    destruct (classHistory c) as [|cls0 cs]; [reflexivity|].
    rewrite fold_sum_right. apply growth_sum_terms.
Qed.

Lemma C1_growth_amended_witness :
  calculateClassScaling (growth_char 3 [(0%Z, empty_snapshot [])]) "strength" (Some 0%Z) == 0.
Proof.
  apply (proj1 (proj2 C1_growth_amended)).
  intros cls [<-|[]]. right. vm_compute. discriminate.
Defined.

(** C10: the growth contribution is nonnegative for every stat and history;
    a phase whose per-level delta for the stat is zero or negative
    contributes nothing. *)
Theorem C10_growth_nonneg :
  (forall s c, 0 <= bd_classScaling (snd (calculateStatWithBreakdown s c)))
  /\ (forall lvl sl s cls,
        num_or (smap_get (statsPerLevel cls) s) 0 <= 0 ->
        class_contribution lvl sl s cls = 0).
Proof.
  split.
  - intros s c. rewrite bd_classScaling_eq. apply calculateClassScaling_nonneg.
  - exact class_contribution_nonpos_delta.
Qed.

Lemma C10_growth_nonneg_witness :
  class_contribution 10 0 "strength"
    {| cls_name := "drain"; startLevel := 1; endLevel := None;
       statsPerLevel := [("strength", -3)]%string |} = 0.
Proof.
  apply (proj2 C10_growth_nonneg). vm_compute. discriminate.
Defined.

(** C2 (code bug): the snapshot recorded a raw title additive of 5 with
    trait multiplier 1; the titles are unchanged and the trait multiplier is
    now 2. The claim's net [5*2 - 5*1 = 5] is not what the composer adds:
    it adds 0. *)
Lemma C2_trait_change_alone_cex :
  let bd := snd (calculateStatWithBreakdown "strength" (c2_char 5)) in
  bd_titleAdditive bd == 5 /\ bd_snapshotRawTitleAdditive bd == 5
  /\ bd_traitMultiplier bd == 2 /\ bd_snapshotTraitMultiplier bd == 1
  /\ bd_preFinalValue bd == bd_snapshotBase bd
  /\ ~ bd_preFinalValue bd ==
       bd_snapshotBase bd + bd_gainsAfterTrait bd
       + (bd_titleAdditive bd * bd_traitMultiplier bd
          - bd_snapshotRawTitleAdditive bd * bd_snapshotTraitMultiplier bd)
       + (bd_statBoostAdditive bd - bd_snapshotIncludedBoostAdditive bd).
Proof.
  vm_compute. repeat split; try reflexivity. intros H; discriminate H.
Qed.

(** C6: the final value is [round(pre * (1 + netTitleRate + netBoostRate))]
    when the combined net rate is positive and [round(pre)] otherwise; the
    net title rate is scaled by the trait multiplier exactly when
    [level >= 30], [traitMultiplier > 1] and [netTitleRate > 0]; the net
    boost rate never is. *)
Theorem C6_final_value s c :
  let bd := snd (calculateStatWithBreakdown s c) in
  let netTitleRate := bd_titleMultiplier bd - bd_snapshotIncludedTitleMultiplier bd in
  let netBoostRate := bd_statBoostMultiplier bd - bd_snapshotIncludedBoostMultiplier bd in
  let effTitleRate :=
    if (30 <=? level c)%Z && Qltb 1 (bd_traitMultiplier bd) && Qltb 0 netTitleRate
    then netTitleRate * bd_traitMultiplier bd else netTitleRate in
  fst (calculateStatWithBreakdown s c) =
    inject_Z (Math_round
      (if Qltb 0 (effTitleRate + netBoostRate)
       then bd_preFinalValue bd * (1 + effTitleRate + netBoostRate)
       else bd_preFinalValue bd)).
Proof.
  destruct (calc_shape s c) as [_ [_ [H3 [H4 [H5 _]]]]]. cbv zeta in *.
  rewrite H5, H4, H3.
  match goal with
  | |- context [if Qltb 0 (?a + ?b) then _ else _] => destruct (Qltb 0 (a + b))
  end; [|reflexivity].
  f_equal. apply Math_round_comp. ring.
Qed.

(** C5 (counterexample): with the redirect to mana active and a manual
    [freePoints.mana = 4], mana keeps its 4 manual free points. *)
Lemma C5_target_keeps_manual_points_cex :
  let bd := snd (calculateStatWithBreakdown "mana" (c5_char [("mana", 4)]%string)) in
  bd_redirectedFreePoints bd == 9 /\ bd_freePoints bd == 4.
Proof. vm_compute. split; reflexivity. Qed.

Lemma getRedirectedFreePoints_first pre tr post x lvl from :
  (forall p, In p pre ->
     find_redirect (effects p) = None \/ find_redirect (effects p) = Some ""%string) ->
  find_redirect (effects tr) = Some x -> x <> ""%string ->
  getRedirectedFreePoints (pre ++ tr :: post) lvl from
  = (Some x, 3 * inject_Z (Z.max 0 (lvl - from))).
Proof.
  intros Hpre Htr Hx. induction pre as [|p pre IH]; simpl.
  - rewrite Htr. destruct (String.eqb x "") eqn:E.
    + apply String.eqb_eq in E. contradiction.
    + reflexivity.
  - destruct (Hpre p (or_introl eq_refl)) as [-> | ->].
    + apply IH. intros q Hq. apply Hpre. now right.
    + simpl. apply IH. intros q Hq. apply Hpre. now right.
Qed.

(** C5 (amended): the first trait whose first RedirectFreePoints effect names
    a target decides the redirect, worth [3 * max(0, level - (snapshotLevel || 1))]
    points to the target; the manual [freePoints] entry of every other stat is
    ignored, while the target keeps its own manual entry. With the redirect to
    mana from level 1, level 4 and [freePoints.strength = 9]: mana gets 9
    redirected points and strength 0 manual points. *)
Theorem C5_redirect_amended :
  (forall pre tr post x lvl from,
     (forall p, In p pre ->
        find_redirect (effects p) = None \/ find_redirect (effects p) = Some ""%string) ->
     find_redirect (effects tr) = Some x -> x <> ""%string ->
     getRedirectedFreePoints (pre ++ tr :: post) lvl from
     = (Some x, 3 * inject_Z (Z.max 0 (lvl - from))))
  /\ (forall c s t,
        fst (getRedirectedFreePoints (traits c) (level c)
               (from_level (fst (current_snapshot c)))) = Some t ->
        let bd := snd (calculateStatWithBreakdown s c) in
        (t <> s -> bd_freePoints bd = 0 /\ bd_redirectedFreePoints bd = 0)
        /\ (t = s ->
            bd_redirectedFreePoints bd
              = snd (getRedirectedFreePoints (traits c) (level c)
                       (from_level (fst (current_snapshot c))))
            /\ bd_freePoints bd = num_or (smap_get (freePoints c) s) 0))
  /\ (let c := c5_char [("strength", 9)]%string in
      bd_redirectedFreePoints (snd (calculateStatWithBreakdown "mana" c)) == 9
      /\ bd_freePoints (snd (calculateStatWithBreakdown "mana" c)) == 0
      /\ bd_freePoints (snd (calculateStatWithBreakdown "strength" c)) == 0).
Proof.
  split; [exact getRedirectedFreePoints_first|split].
  - intros c s t H. unfold calculateStatWithBreakdown.
    destruct (current_snapshot c) as [sl sn]. simpl in H |- *.
    destruct (getRedirectedFreePoints (traits c) (level c) (from_level sl)) as [tgt pts].
    simpl in H |- *. subst tgt.
    destruct (String.eqb t s) eqn:E.
    + apply String.eqb_eq in E.
      split; [intros; contradiction|intros _].
      destruct sn; simpl; split; reflexivity.
    + apply String.eqb_neq in E.
      split; [intros _|intros; contradiction].
      destruct sn; simpl; split; reflexivity.
  - vm_compute. repeat split.
Qed.

Lemma C5_redirect_amended_witness :
  getRedirectedFreePoints
    ([{| trait_name := "plain"; effects := [] |}]
     ++ {| trait_name := "will"; effects := [RedirectFreePoints "mana"] |}
     :: [{| trait_name := "other"; effects := [RedirectFreePoints "wisdom"] |}])
    4 1 = (Some "mana"%string, 3 * inject_Z (Z.max 0 (4 - 1))).
Proof.
  apply (proj1 C5_redirect_amended).
  - intros p [<-|[]]. left. reflexivity.
  - reflexivity.
  - discriminate.
Defined.

(** C8 (code bug): a stored current HP of 0 is read through [||], so it is
    replaced by the maximum: the recomputed current HP is 100, not 0. *)
Lemma C8_stored_zero_current_resets :
  hp_current c8_char = Some 0
  /\ res_max (hp (calculateDerivedStats [("constitution", 10)]%string c8_char 0)) == 100
  /\ res_current (hp (calculateDerivedStats [("constitution", 10)]%string c8_char 0)) == 100.
Proof. vm_compute. repeat split. Qed.

(** C9: the companion updates of the provider ([updateCompanion],
    [updateCompanionFreePoints], [updateCompanionLevel]), in any number and
    order, leave the stored main record, with its stored [mana], unchanged;
    for two states with the same main record, the main resolved stats are
    equal and the main derived stats differ only through the synced mana,
    which is [syncedManaForMain] of the companion's resolved stats and enters
    only the MP maximum [(mana + synced) * 10]. Raising the companion's free
    mana from 0 to 20 raises the main MP maximum from 50 to 150 and leaves
    the main stored and resolved mana at 5. *)
Theorem C9_bond_sync_read_only :
  (forall hasCompanion ops st st',
     forallb is_companion_op ops = true ->
     ctx_run hasCompanion st ops = Some st' -> st_main st' = st_main st)
  /\ (forall hasBond st st',
        st_main st' = st_main st ->
        mainFinalStats (ctx_view hasBond st') = mainFinalStats (ctx_view hasBond st)
        /\ mainDerivedStats (ctx_view hasBond st')
           = calculateDerivedStats (mainFinalStats (ctx_view hasBond st)) (st_main st)
               (syncedMana (ctx_view hasBond st'))
        /\ hp (mainDerivedStats (ctx_view hasBond st'))
           = hp (mainDerivedStats (ctx_view hasBond st)))
  /\ (forall hasBond st,
        syncedMana (ctx_view hasBond st)
        = syncedManaForMain hasBond (companionFinalStats (ctx_view hasBond st))
        /\ res_max (mp (mainDerivedStats (ctx_view hasBond st)))
           = (num_or (smap_get (mainFinalStats (ctx_view hasBond st)) "mana") 0
              + syncedMana (ctx_view hasBond st)) * 10)
  /\ (exists st',
        ctx_run true bond_state [UpdateCompanionFreePoints "mana" 20] = Some st'
        /\ smap_get (freePoints (st_main st')) "mana" = Some 5
        /\ smap_get (mainFinalStats (ctx_view true st')) "mana" = Some 5
        /\ res_max (mp (mainDerivedStats (ctx_view true bond_state))) = 50
        /\ res_max (mp (mainDerivedStats (ctx_view true st'))) = 150).
Proof.
  split; [|split; [|split]].
  - intros hc ops. induction ops as [|op ops IH]; intros st st' Hc Hr.
    + simpl in Hr. congruence.
    + simpl in Hc, Hr. apply andb_prop in Hc as [Hop Hc].
      destruct (ctx_step hc st op) as [st1|] eqn:E; [|discriminate].
      rewrite (IH st1 st' Hc Hr).
      destruct op; try discriminate Hop; simpl in E; destruct hc;
        try (injection E as <-; reflexivity).
      destruct (st_companion st); [|discriminate]. injection E as <-. reflexivity.
  - intros hb st st' E. unfold ctx_view. cbn [mainFinalStats mainDerivedStats syncedMana].
    rewrite E. repeat split.
  - intros hb st. split; reflexivity.
  - eexists. split; [reflexivity|]. vm_compute. repeat split.
Qed.

(** C3 (code bug): manual free points are added again on top of a snapshot
    that already contains them, so taking a snapshot changes the resolved
    stats (5 becomes 10); two derivation rules on one target also subtract
    the recorded derivation bonus twice (35 becomes 50). *)
Lemma C3_snapshot_roundtrip_fails :
  stat_of c3_free_points_char "strength" = Some 5
  /\ stat_of (handleTakeSnapshot c3_free_points_char) "strength" = Some 10
  /\ stat_of c3_derivation_char "intellect" = Some 35
  /\ stat_of (handleTakeSnapshot c3_derivation_char) "intellect" = Some 50.
Proof. vm_compute. repeat split. Qed.

(** ** The derivation pass *)

Lemma smap_get_set m k v s :
  smap_get (smap_set m k v) s =
  if String.eqb s k then match smap_get m s with Some _ => Some v | None => None end
  else smap_get m s.
Proof.
  induction m as [|[k' v'] r IH]; simpl.
  - now destruct (String.eqb s k).
  - destruct (String.eqb k k') eqn:E1; simpl.
    + apply String.eqb_eq in E1. subst k'.
      destruct (String.eqb s k); reflexivity.
    + rewrite IH. destruct (String.eqb s k') eqn:E2; [|reflexivity].
      apply String.eqb_eq in E2. subst k'.
      destruct (String.eqb s k) eqn:E3; [|reflexivity].
      apply String.eqb_eq in E3. subst k. now rewrite String.eqb_refl in E1.
Qed.

Lemma derivation_step_fst b snap acc d :
  fst (derivation_step b snap acc d) = derive_stats snap (fst acc) d.
Proof.
  destruct acc as [st bds]. unfold derivation_step, derive_stats. cbn [fst].
  destruct (smap_get st (sourceStat d)), (smap_get st (targetStat d)); reflexivity.
Qed.

Lemma fold_derivation_fst b snap ds acc :
  fst (fold_left (derivation_step b snap) ds acc) = fold_left (derive_stats snap) ds (fst acc).
Proof.
  revert acc. induction ds as [|d ds IH]; intros acc; simpl; [reflexivity|].
  rewrite IH, derivation_step_fst. reflexivity.
Qed.

Lemma calculateAllStats_stats c :
  fst (calculateAllStats c) =
  fold_left (derive_stats (snd (current_snapshot c)))
    (getStatDerivations (traits c) ++ statDerivations c) (fst (first_pass c)).
Proof.
  unfold calculateAllStats. rewrite fold_derivation_fst, fold_derivation_fst, fold_left_app.
  reflexivity.
Qed.

Lemma derive_stats_target snap st d vs vt :
  smap_get st (sourceStat d) = Some vs -> smap_get st (targetStat d) = Some vt ->
  exists v, smap_get (derive_stats snap st d) (targetStat d) = Some v
    /\ v == vt + (derivation_bonus vs (percent d)
                  - getSnapshotIncludedDerivation snap (targetStat d)).
Proof.
  intros Hs Ht. unfold derive_stats. rewrite Hs, Ht.
  set (net := derivation_bonus vs (percent d)
              - getSnapshotIncludedDerivation snap (targetStat d)).
  destruct (Qeq_bool net 0) eqn:E; simpl.
  - exists vt. split; [exact Ht|]. apply Qeq_bool_eq in E. rewrite E. ring.
  - exists (vt + net). split; [|reflexivity].
    rewrite smap_get_set, String.eqb_refl, Ht. reflexivity.
Qed.

Lemma derive_stats_other snap st d k :
  k <> targetStat d -> smap_get (derive_stats snap st d) k = smap_get st k.
Proof.
  intros Hk. unfold derive_stats.
  destruct (smap_get st (sourceStat d)), (smap_get st (targetStat d)); try reflexivity.
  destruct (negb _); [|reflexivity].
  rewrite smap_get_set. apply String.eqb_neq in Hk. now rewrite Hk.
Qed.

(** C7 (code bug): willpower resolves to 100 before the derivation pass and
    a 29% rule derives intellect from it. The specified bonus is
    [floor(100 * 29 / 100) = 29]; the code computes
    [Math.floor(100 * (29 / 100))] on doubles, where [29 / 100] rounds below
    0.29 and the product to 28.999999999999996, and adds 28. At 25% both
    give 25. *)
Lemma C7_float_floor_cex :
  smap_get (fst (first_pass c7_char29)) "willpower" = Some 100
  /\ getStatDerivations (traits c7_char29)
     = [{| sourceStat := "willpower"; targetStat := "intellect"; percent := 29 |}]%string
  /\ Qfloor (100 * 29 / 100) = 29%Z
  /\ option_map (Qeq_bool (28999999999999996447286321199499070644378662109375
                           # 1000000000000000000000000000000000000000000000000))
       (js_to_Q (js_mul (js_of_Z 100) (js_div (js_of_Z 29) (js_of_Z 100))))
     = Some true
  /\ js_derivation_bonus 100 29 = Some 28%Z
  /\ js_derivation_bonus 100 25 = Some 25%Z.
Proof. vm_compute. repeat split. Qed.

(** ** Bonus maps *)

Lemma smap_get_add_if m k v s :
  smap_get (smap_add_if m k v) s =
  if String.eqb k s then option_map (fun x => x + v) (smap_get m s) else smap_get m s.
Proof.
  unfold smap_add_if.
  destruct (String.eqb k s) eqn:E.
  - apply String.eqb_eq in E. subst k.
    destruct (smap_get m s) eqn:G; simpl; [|exact G].
    rewrite smap_get_set, String.eqb_refl, G. reflexivity.
  - destruct (smap_get m k); [|reflexivity].
    rewrite smap_get_set. rewrite String.eqb_sym in E. now rewrite E.
Qed.

Lemma add_all_get {A} (key : A -> string) (val : A -> Q) xs m s :
  match smap_get m s with
  | Some x => exists y, smap_get (add_all key val xs m) s = Some y
                        /\ y == x + sum_for key val xs s
  | None => smap_get (add_all key val xs m) s = None
  end.
Proof.
  revert m. induction xs as [|x xs IH]; intros m; simpl.
  - destruct (smap_get m s); [|reflexivity]. eexists; split; [reflexivity|ring].
  - specialize (IH (smap_add_if m (key x) (val x))).
    rewrite smap_get_add_if in IH. unfold add_all in *. simpl.
    destruct (smap_get m s) as [x0|]; destruct (String.eqb (key x) s); simpl in IH.
    + destruct IH as [y [Hy Hy']]. exists y. split; [exact Hy|]. rewrite Hy'. ring.
    + destruct IH as [y [Hy Hy']]. exists y. split; [exact Hy|]. rewrite Hy'. ring.
    + exact IH.
    + exact IH.
Qed.

Lemma add_all_ext {A} (key : A -> string) (val : A -> Q) xs ys m :
  Forall2 (fun x y => key x = key y /\ val x = val y) xs ys ->
  add_all key val xs m = add_all key val ys m.
Proof.
  intros H. revert m. induction H as [|x y xs ys [Hk Hv] _ IH]; intros m; [reflexivity|].
  unfold add_all in *. simpl. rewrite Hk, Hv. apply IH.
Qed.

Lemma sum_for_app {A} (key : A -> string) (val : A -> Q) xs ys s :
  sum_for key val (xs ++ ys) s == sum_for key val xs s + sum_for key val ys s.
Proof.
  induction xs as [|x xs IH]; simpl; [ring|].
  unfold sum_for in *. simpl. rewrite IH. ring.
Qed.

Lemma sum_for_bump {A} (key : A -> string) (val : A -> Q) l1 x y l2 s :
  key x = key y ->
  sum_for key val (l1 ++ y :: l2) s ==
  sum_for key val (l1 ++ x :: l2) s
  + (if String.eqb (key x) s then val y - val x else 0).
Proof.
  intros Hk. rewrite !sum_for_app. unfold sum_for. simpl. rewrite <- Hk.
  destruct (String.eqb (key x) s); ring.
Qed.

Lemma getTitleAdditiveBonuses_flat ts :
  getTitleAdditiveBonuses ts = add_all b_stat title_bonus_additive (enabled_bonuses ts) zero_stats.
Proof.
  unfold getTitleAdditiveBonuses, enabled_bonuses. generalize zero_stats.
  induction ts as [|t ts IH]; intros m; [reflexivity|].
  simpl. unfold add_all in *. rewrite fold_left_app, <- IH.
  destruct (title_enabled t); reflexivity.
Qed.

Lemma getTitleMultiplierBonuses_flat ts :
  getTitleMultiplierBonuses ts =
  add_all b_stat (fun b => jsor (b_multiplier b) 0) (enabled_bonuses ts) zero_stats.
Proof.
  unfold getTitleMultiplierBonuses, enabled_bonuses. generalize zero_stats.
  induction ts as [|t ts IH]; intros m; [reflexivity|].
  simpl. unfold add_all in *. rewrite fold_left_app, <- IH.
  destruct (title_enabled t); reflexivity.
Qed.

Lemma getStatBoostAdditiveBonuses_flat bs :
  getStatBoostAdditiveBonuses bs =
  add_all boost_stat (fun b => jsor (boost_additive b) 0) (enabled_boosts bs) zero_stats.
Proof.
  unfold getStatBoostAdditiveBonuses, enabled_boosts. generalize zero_stats.
  induction bs as [|b bs IH]; intros m; [reflexivity|].
  simpl. destruct (boost_enabled b); simpl; apply IH.
Qed.

Lemma getStatBoostMultiplierBonuses_flat bs :
  getStatBoostMultiplierBonuses bs =
  add_all boost_stat (fun b => jsor (boost_multiplier b) 0) (enabled_boosts bs) zero_stats.
Proof.
  unfold getStatBoostMultiplierBonuses, enabled_boosts. generalize zero_stats.
  induction bs as [|b bs IH]; intros m; [reflexivity|].
  simpl. destruct (boost_enabled b); simpl; apply IH.
Qed.

Lemma zero_stats_get s x : smap_get zero_stats s = Some x -> x = 0.
Proof.
  unfold zero_stats, ALL_STATS, PHYSICAL_STATS, MAGICAL_STATS. simpl.
  repeat (destruct (String.eqb s _); [intros H; injection H; auto|]). discriminate.
Qed.

Lemma num_or_add_all {A} (key : A -> string) (val : A -> Q) xs s :
  num_or (smap_get (add_all key val xs zero_stats) s) 0 ==
  (if smap_has zero_stats s then sum_for key val xs s else 0).
Proof.
  pose proof (add_all_get key val xs zero_stats s) as H. unfold smap_has.
  destruct (smap_get zero_stats s) as [x|] eqn:E.
  - apply zero_stats_get in E. subst x. destruct H as [y [-> Hy]].
    simpl. rewrite jsor_0, Hy. ring.
  - rewrite H. reflexivity.
Qed.

Lemma Forall2_refl {A} (R : A -> A -> Prop) l : (forall x, R x x) -> Forall2 R l l.
Proof. intros H. induction l; constructor; auto. Qed.

Lemma enabled_bonuses_split tpre t tpost bpre b bpost :
  title_enabled t = true -> title_bonuses t = bpre ++ b :: bpost ->
  enabled_bonuses (tpre ++ t :: tpost)
  = (enabled_bonuses tpre ++ bpre) ++ b :: (bpost ++ enabled_bonuses tpost).
Proof.
  intros He Hb. unfold enabled_bonuses. rewrite flat_map_app. simpl.
  rewrite He, Hb. rewrite <- !app_assoc. reflexivity.
Qed.

Lemma enabled_bonuses_disabled tpre t t' tpost :
  title_enabled t = false -> title_enabled t' = false ->
  enabled_bonuses (tpre ++ t :: tpost) = enabled_bonuses (tpre ++ t' :: tpost).
Proof.
  intros He He'. unfold enabled_bonuses. rewrite !flat_map_app. simpl.
  now rewrite He, He'.
Qed.

(** The title additive of a stat after bumping one entry. *)
Lemma title_bump_additive c tpre t tpost bpre b bpost a s :
  titles c = tpre ++ t :: tpost -> title_bonuses t = bpre ++ b :: bpost ->
  num_or (smap_get (getTitleAdditiveBonuses
           (titles (bump_title_entry c tpre t tpost bpre b bpost a))) s) 0
  == num_or (smap_get (getTitleAdditiveBonuses (titles c)) s) 0
     + (if smap_has zero_stats s && title_enabled t && String.eqb (b_stat b) s
        then title_bonus_additive (bump_bonus b a) - title_bonus_additive b else 0).
Proof.
  intros Ht Hb. rewrite !getTitleAdditiveBonuses_flat, !num_or_add_all, Ht.
  unfold bump_title_entry, with_titles. cbn [titles].
  destruct (title_enabled t) eqn:He.
  - rewrite (enabled_bonuses_split tpre t tpost bpre b bpost He Hb).
    rewrite (enabled_bonuses_split tpre
               {| title_name := title_name t; title_enabled := true;
                  title_bonuses := bpre ++ bump_bonus b a :: bpost |}
               tpost bpre (bump_bonus b a) bpost eq_refl eq_refl).
    destruct (smap_has zero_stats s); simpl; [|ring].
    rewrite (sum_for_bump b_stat title_bonus_additive _ b (bump_bonus b a)); [|reflexivity].
    reflexivity.
  - rewrite (enabled_bonuses_disabled tpre t
               {| title_name := title_name t; title_enabled := false;
                  title_bonuses := bpre ++ bump_bonus b a :: bpost |} tpost He eq_refl).
    rewrite andb_false_r. cbn [andb]. destruct (smap_has zero_stats s); ring.
Qed.

Lemma title_bump_multiplier c tpre t tpost bpre b bpost a :
  titles c = tpre ++ t :: tpost -> title_bonuses t = bpre ++ b :: bpost ->
  getTitleMultiplierBonuses (titles (bump_title_entry c tpre t tpost bpre b bpost a))
  = getTitleMultiplierBonuses (titles c).
Proof.
  intros Ht Hb. rewrite !getTitleMultiplierBonuses_flat, Ht.
  unfold bump_title_entry, with_titles. cbn [titles].
  destruct (title_enabled t) eqn:He.
  - rewrite (enabled_bonuses_split tpre t tpost bpre b bpost He Hb).
    rewrite (enabled_bonuses_split tpre
               {| title_name := title_name t; title_enabled := true;
                  title_bonuses := bpre ++ bump_bonus b a :: bpost |}
               tpost bpre (bump_bonus b a) bpost eq_refl eq_refl).
    apply add_all_ext. apply Forall2_app; [apply Forall2_refl; auto|].
    constructor; [split; reflexivity|apply Forall2_refl; auto].
  - f_equal. symmetry. apply enabled_bonuses_disabled; [exact He|reflexivity].
Qed.

Lemma enabled_boosts_bump bpre b bpost a :
  enabled_boosts (bpre ++ bump_boost b a :: bpost) =
  if boost_enabled b
  then filter boost_enabled bpre ++ bump_boost b a :: filter boost_enabled bpost
  else enabled_boosts (bpre ++ b :: bpost).
Proof.
  unfold enabled_boosts. rewrite !filter_app. simpl.
  destruct (boost_enabled b); reflexivity.
Qed.

Lemma boost_bump_additive c bpre b bpost a s :
  statBoosts c = bpre ++ b :: bpost ->
  num_or (smap_get (getStatBoostAdditiveBonuses
           (statBoosts (bump_boost_entry c bpre b bpost a))) s) 0
  == num_or (smap_get (getStatBoostAdditiveBonuses (statBoosts c)) s) 0
     + (if smap_has zero_stats s && boost_enabled b && String.eqb (boost_stat b) s
        then jsor a 0 - jsor (boost_additive b) 0 else 0).
Proof.
  intros Hc. rewrite !getStatBoostAdditiveBonuses_flat, !num_or_add_all, Hc.
  unfold bump_boost_entry, with_statBoosts. cbn [statBoosts].
  rewrite enabled_boosts_bump.
  destruct (boost_enabled b) eqn:He.
  - unfold enabled_boosts. rewrite filter_app. simpl. rewrite He.
    destruct (smap_has zero_stats s); simpl; [|ring].
    rewrite (sum_for_bump boost_stat (fun b => jsor (boost_additive b) 0) _ b (bump_boost b a));
      [|reflexivity].
    reflexivity.
  - rewrite andb_false_r. cbn [andb]. destruct (smap_has zero_stats s); ring.
Qed.

Lemma boost_bump_multiplier c bpre b bpost a :
  statBoosts c = bpre ++ b :: bpost ->
  getStatBoostMultiplierBonuses (statBoosts (bump_boost_entry c bpre b bpost a))
  = getStatBoostMultiplierBonuses (statBoosts c).
Proof.
  intros Hc. rewrite !getStatBoostMultiplierBonuses_flat, Hc.
  unfold bump_boost_entry, with_statBoosts. cbn [statBoosts].
  rewrite enabled_boosts_bump.
  destruct (boost_enabled b) eqn:He; [|reflexivity].
  unfold enabled_boosts. rewrite filter_app. simpl. rewrite He.
  apply add_all_ext. apply Forall2_app; [apply Forall2_refl; auto|].
  constructor; [split; reflexivity|apply Forall2_refl; auto].
Qed.

(** ** Monotonicity of the derivation pass *)

Lemma smap_get_keys m1 m2 k :
  map fst m1 = map fst m2 -> (smap_get m1 k = None <-> smap_get m2 k = None).
Proof.
  revert m2. induction m1 as [|[k1 v1] r1 IH]; intros [|[k2 v2] r2] H; simpl in *;
    try discriminate; [tauto|].
  injection H as -> H. destruct (String.eqb k k2); [split; intros; discriminate|].
  now apply IH.
Qed.

Lemma smap_set_keys m k v : map fst (smap_set m k v) = map fst m.
Proof.
  induction m as [|[k' v'] r IH]; simpl; [reflexivity|].
  destruct (String.eqb k k'); simpl; [reflexivity|]. now rewrite IH.
Qed.

Lemma derive_stats_keys snap m d : map fst (derive_stats snap m d) = map fst m.
Proof.
  unfold derive_stats.
  destruct (smap_get m (sourceStat d)), (smap_get m (targetStat d)); try reflexivity.
  destruct (negb _); [apply smap_set_keys|reflexivity].
Qed.

Lemma derive_stats_absent snap m d :
  smap_get m (sourceStat d) = None \/ smap_get m (targetStat d) = None ->
  derive_stats snap m d = m.
Proof.
  unfold derive_stats. intros [H|H]; rewrite H; [reflexivity|].
  destruct (smap_get m (sourceStat d)); reflexivity.
Qed.

Lemma derivation_bonus_mono x y p :
  0 <= p -> x <= y -> derivation_bonus x p <= derivation_bonus y p.
Proof.
  intros Hp Hxy. unfold derivation_bonus. rewrite <- Zle_Qle. apply Qfloor_resp_le.
  apply Qmult_le_compat_r; [exact Hxy|].
  unfold Qdiv. apply Qmult_le_0_compat; [exact Hp|]. unfold Qle; simpl; lia.
Qed.

Lemma derive_stats_mono snap m m' d :
  0 <= percent d -> stats_le m m' -> stats_le (derive_stats snap m d) (derive_stats snap m' d).
Proof.
  intros Hp [Hk Hv]. split; [now rewrite !derive_stats_keys|].
  destruct (smap_get m (sourceStat d)) as [vs|] eqn:Es.
  2:{ assert (smap_get m' (sourceStat d) = None) by (now apply (smap_get_keys m m')).
      rewrite !derive_stats_absent by auto. exact Hv. }
  destruct (smap_get m (targetStat d)) as [vt|] eqn:Et.
  2:{ assert (smap_get m' (targetStat d) = None) by (now apply (smap_get_keys m m')).
      rewrite !derive_stats_absent by auto. exact Hv. }
  destruct (smap_get m' (sourceStat d)) as [vs'|] eqn:Es'.
  2:{ pose proof (proj2 (smap_get_keys m m' _ Hk) Es'). congruence. }
  destruct (smap_get m' (targetStat d)) as [vt'|] eqn:Et'.
  2:{ pose proof (proj2 (smap_get_keys m m' _ Hk) Et'). congruence. }
  intros k v1 v2 H1 H2.
  destruct (String.eqb k (targetStat d)) eqn:Ek.
  - apply String.eqb_eq in Ek. subst k.
    destruct (derive_stats_target snap m d vs vt Es Et) as [w [Hw Hw']].
    destruct (derive_stats_target snap m' d vs' vt' Es' Et') as [w' [Hw2 Hw2']].
    rewrite H1 in Hw. injection Hw as <-. rewrite H2 in Hw2. injection Hw2 as <-.
    rewrite Hw', Hw2'.
    pose proof (Hv _ _ _ Es Es') as Hs. pose proof (Hv _ _ _ Et Et') as Ht.
    pose proof (derivation_bonus_mono vs vs' (percent d) Hp Hs). lra.
  - apply String.eqb_neq in Ek.
    rewrite derive_stats_other in H1, H2 by exact Ek. exact (Hv _ _ _ H1 H2).
Qed.

Lemma fold_derive_mono snap ds m m' :
  (forall d, In d ds -> 0 <= percent d) -> stats_le m m' ->
  stats_le (fold_left (derive_stats snap) ds m) (fold_left (derive_stats snap) ds m').
Proof.
  revert m m'. induction ds as [|d ds IH]; intros m m' Hp H; simpl; [exact H|].
  apply IH; [intros; apply Hp; now right|].
  apply derive_stats_mono; [apply Hp; now left|exact H].
Qed.

Lemma smap_get_map (f : string -> Q) l k v :
  smap_get (map (fun s => (s, f s)) l) k = Some v -> v = f k.
Proof.
  induction l as [|x l IH]; simpl; [discriminate|].
  destruct (String.eqb k x) eqn:E; [|exact IH].
  apply String.eqb_eq in E. subst. intros H. injection H. auto.
Qed.

Lemma first_pass_mono c c' :
  (forall s, fst (calculateStatWithBreakdown s c) <= fst (calculateStatWithBreakdown s c')) ->
  stats_le (fst (first_pass c)) (fst (first_pass c')).
Proof.
  intros H. unfold first_pass; cbn [fst]. split.
  - rewrite !map_map. reflexivity.
  - intros k v1 v2 H1 H2.
    apply smap_get_map in H1. apply smap_get_map in H2. subst. apply H.
Qed.

Lemma stat_of_mono c c' :
  snd (current_snapshot c') = snd (current_snapshot c) ->
  traits c' = traits c -> statDerivations c' = statDerivations c ->
  derivation_percents_nonneg c ->
  (forall s, fst (calculateStatWithBreakdown s c) <= fst (calculateStatWithBreakdown s c')) ->
  forall s v v', stat_of c s = Some v -> stat_of c' s = Some v' -> v <= v'.
Proof.
  intros Hs Ht Hd Hp H s v v' H1 H2. unfold stat_of in *.
  rewrite calculateAllStats_stats in H1, H2. rewrite Hs, Ht, Hd in H2.
  exact (proj2 (fold_derive_mono _ _ _ _ Hp (first_pass_mono c c' H)) s v v' H1 H2).
Qed.

(** ** Monotonicity of the Delta Composer *)

Lemma final_step_mono p p' t :
  p <= p' ->
  inject_Z (Math_round (if Qltb 0 t then p * (1 + t) else p))
  <= inject_Z (Math_round (if Qltb 0 t then p' * (1 + t) else p')).
Proof.
  intros H. apply Math_round_mono. destruct (Qltb 0 t) eqn:E; [|exact H].
  apply Qltb_true in E. apply Qmult_le_compat_r; [exact H|lra].
Qed.

Lemma preFinal_net s c :
  bd_preFinalValue (snd (calculateStatWithBreakdown s c)) =
  bd_snapshotBase (snd (calculateStatWithBreakdown s c))
  + bd_gainsAfterTrait (snd (calculateStatWithBreakdown s c))
  + bd_netTitleAdditive (snd (calculateStatWithBreakdown s c))
  + (bd_statBoostAdditive (snd (calculateStatWithBreakdown s c))
     - bd_snapshotIncludedBoostAdditive (snd (calculateStatWithBreakdown s c))).
Proof. exact (proj1 (calc_shape s c)). Qed.

Lemma bd_netTitleAdditive_eq s c :
  bd_netTitleAdditive (snd (calculateStatWithBreakdown s c)) =
  netTitleAdditive_of (bd_titleAdditive (snd (calculateStatWithBreakdown s c)))
    (bd_traitMultiplier (snd (calculateStatWithBreakdown s c)))
    (bd_titleAdditive (snd (calculateStatWithBreakdown s c))
     * bd_traitMultiplier (snd (calculateStatWithBreakdown s c)))
    (bd_snapshotRawTitleAdditive (snd (calculateStatWithBreakdown s c)))
    (bd_snapshotTraitMultiplier (snd (calculateStatWithBreakdown s c)))
    (bd_snapshotIncludedTitleAdditive (snd (calculateStatWithBreakdown s c))).
Proof.
  unfold bd_netTitleAdditive. now rewrite (proj1 (proj2 (calc_shape s c))).
Qed.

Lemma calc_bonus_fields s c :
  bd_titleAdditive (snd (calculateStatWithBreakdown s c))
    = num_or (smap_get (getTitleAdditiveBonuses (titles c)) s) 0
  /\ bd_titleMultiplier (snd (calculateStatWithBreakdown s c))
    = num_or (smap_get (getTitleMultiplierBonuses (titles c)) s) 0
  /\ bd_statBoostAdditive (snd (calculateStatWithBreakdown s c))
    = num_or (smap_get (getStatBoostAdditiveBonuses (statBoosts c)) s) 0
  /\ bd_statBoostMultiplier (snd (calculateStatWithBreakdown s c))
    = num_or (smap_get (getStatBoostMultiplierBonuses (statBoosts c)) s) 0
  /\ bd_traitMultiplier (snd (calculateStatWithBreakdown s c))
    = getTraitMultiplier (traits c) s.
Proof.
  unfold calculateStatWithBreakdown.
  destruct (current_snapshot c) as [sl [sn|]]; repeat split.
Qed.

(** The Delta Composer with the same character apart from [titles] or
    [statBoosts]: everything but the title or the boost fields is unchanged. *)
Lemma calc_frame s c c' :
  level c' = level c -> classHistory c' = classHistory c ->
  levelSnapshots c' = levelSnapshots c -> freePoints c' = freePoints c ->
  traits c' = traits c ->
  bd_snapshotBase (snd (calculateStatWithBreakdown s c'))
    = bd_snapshotBase (snd (calculateStatWithBreakdown s c))
  /\ bd_snapshotIncludedTitleAdditive (snd (calculateStatWithBreakdown s c'))
    = bd_snapshotIncludedTitleAdditive (snd (calculateStatWithBreakdown s c))
  /\ bd_snapshotIncludedTitleMultiplier (snd (calculateStatWithBreakdown s c'))
    = bd_snapshotIncludedTitleMultiplier (snd (calculateStatWithBreakdown s c))
  /\ bd_snapshotIncludedBoostAdditive (snd (calculateStatWithBreakdown s c'))
    = bd_snapshotIncludedBoostAdditive (snd (calculateStatWithBreakdown s c))
  /\ bd_snapshotIncludedBoostMultiplier (snd (calculateStatWithBreakdown s c'))
    = bd_snapshotIncludedBoostMultiplier (snd (calculateStatWithBreakdown s c))
  /\ bd_snapshotRawTitleAdditive (snd (calculateStatWithBreakdown s c'))
    = bd_snapshotRawTitleAdditive (snd (calculateStatWithBreakdown s c))
  /\ bd_snapshotTraitMultiplier (snd (calculateStatWithBreakdown s c'))
    = bd_snapshotTraitMultiplier (snd (calculateStatWithBreakdown s c))
  /\ bd_gainsAfterTrait (snd (calculateStatWithBreakdown s c'))
    = bd_gainsAfterTrait (snd (calculateStatWithBreakdown s c)).
Proof.
  intros Hl Hch Hls Hfp Ht.
  assert (Hs : current_snapshot c' = current_snapshot c)
    by (unfold current_snapshot; now rewrite Hl, Hls).
  assert (Hcs : calculateClassScaling c' = calculateClassScaling c)
    by (unfold calculateClassScaling; now rewrite Hch, Hl).
  unfold calculateStatWithBreakdown. rewrite Hs, Hcs, Hl, Hfp, Ht.
  destruct (current_snapshot c) as [sl [sn|]]; repeat split.
Qed.

Lemma calc_mono s c c' :
  level c' = level c ->
  bd_traitMultiplier (snd (calculateStatWithBreakdown s c'))
    = bd_traitMultiplier (snd (calculateStatWithBreakdown s c)) ->
  bd_titleMultiplier (snd (calculateStatWithBreakdown s c'))
    = bd_titleMultiplier (snd (calculateStatWithBreakdown s c)) ->
  bd_snapshotIncludedTitleMultiplier (snd (calculateStatWithBreakdown s c'))
    = bd_snapshotIncludedTitleMultiplier (snd (calculateStatWithBreakdown s c)) ->
  bd_statBoostMultiplier (snd (calculateStatWithBreakdown s c'))
    = bd_statBoostMultiplier (snd (calculateStatWithBreakdown s c)) ->
  bd_snapshotIncludedBoostMultiplier (snd (calculateStatWithBreakdown s c'))
    = bd_snapshotIncludedBoostMultiplier (snd (calculateStatWithBreakdown s c)) ->
  bd_preFinalValue (snd (calculateStatWithBreakdown s c))
    <= bd_preFinalValue (snd (calculateStatWithBreakdown s c')) ->
  fst (calculateStatWithBreakdown s c) <= fst (calculateStatWithBreakdown s c').
Proof.
  intros Hl H1 H2 H3 H4 H5 Hp.
  destruct (calc_shape s c) as (_ & _ & E1 & E2 & E3 & _).
  destruct (calc_shape s c') as (_ & _ & E1' & E2' & E3' & _).
  rewrite E3, E3'. cbv zeta.
  rewrite E2, E2', E1, E1', Hl, H1, H2, H3, H4, H5.
  apply final_step_mono. exact Hp.
Qed.

Lemma netTitle_le ta ta' tm raw stm inc :
  ta <= ta' -> 0 <= tm ->
  (Qltb 0 raw || negb (Qeq_bool stm 1)) && Qeq_bool ta raw = false ->
  (Qltb 0 raw || negb (Qeq_bool stm 1)) && Qeq_bool ta' raw = false ->
  netTitleAdditive_of ta tm (ta * tm) raw stm inc
  <= netTitleAdditive_of ta' tm (ta' * tm) raw stm inc.
Proof.
  intros H Htm E E'. unfold netTitleAdditive_of.
  assert (ta * tm <= ta' * tm) by (apply Qmult_le_compat_r; assumption).
  destruct (Qltb 0 raw || negb (Qeq_bool stm 1)); cbn [andb] in E, E'.
  - rewrite E, E'. lra.
  - lra.
Qed.

Lemma netTitle_eq ta ta' tm raw stm inc :
  ta == ta' ->
  netTitleAdditive_of ta tm (ta * tm) raw stm inc
  == netTitleAdditive_of ta' tm (ta' * tm) raw stm inc.
Proof.
  intros H. unfold netTitleAdditive_of.
  destruct (_ || _); [|rewrite H; reflexivity].
  destruct (Qeq_bool ta raw) eqn:E; destruct (Qeq_bool ta' raw) eqn:E'.
  - reflexivity.
  - apply Qeq_bool_eq in E. apply Qeq_bool_neq in E'. exfalso. apply E'.
    rewrite <- H. exact E.
  - apply Qeq_bool_neq in E. apply Qeq_bool_eq in E'. exfalso. apply E.
    rewrite H. exact E'.
  - rewrite H. reflexivity.
Qed.

Lemma title_bonus_additive_novalue b : b_value b == 0 -> title_bonus_additive b == b_additive b.
Proof.
  intros H. unfold title_bonus_additive, jsor.
  destruct (Qeq_bool (b_additive b) 0) eqn:E; [|reflexivity].
  apply Qeq_bool_eq in E. rewrite E.
  destruct (Qeq_bool (b_value b) 0); [reflexivity|exact H].
Qed.

Lemma calc_title_bump_le c tpre t tpost bpre b bpost a s :
  titles c = tpre ++ t :: tpost -> title_bonuses t = bpre ++ b :: bpost ->
  b_additive b <= a -> b_value b == 0 ->
  0 <= getTraitMultiplier (traits c) (b_stat b) ->
  title_early_out (snd (calculateStatWithBreakdown (b_stat b) c)) = false ->
  title_early_out (snd (calculateStatWithBreakdown (b_stat b)
                          (bump_title_entry c tpre t tpost bpre b bpost a))) = false ->
  fst (calculateStatWithBreakdown s c)
  <= fst (calculateStatWithBreakdown s (bump_title_entry c tpre t tpost bpre b bpost a)).
Proof.
  intros Ht Hb Ha Hv Htm E E'.
  pose proof (title_bump_additive c tpre t tpost bpre b bpost a s Ht Hb) as TA.
  pose proof (title_bump_multiplier c tpre t tpost bpre b bpost a Ht Hb) as TM.
  set (c' := bump_title_entry c tpre t tpost bpre b bpost a) in *.
  destruct (calc_frame s c c' eq_refl eq_refl eq_refl eq_refl eq_refl)
    as (F1 & F2 & F3 & F4 & F5 & F6 & F7 & F8).
  destruct (calc_bonus_fields s c) as (G1 & G2 & G3 & G4 & G5).
  destruct (calc_bonus_fields s c') as (G1' & G2' & G3' & G4' & G5').
  apply calc_mono; [reflexivity | now rewrite G5, G5' | now rewrite G2, G2', TM
                   | exact F3 | now rewrite G4, G4' | exact F5 |].
  assert (bd_statBoostAdditive (snd (calculateStatWithBreakdown s c'))
          = bd_statBoostAdditive (snd (calculateStatWithBreakdown s c))) as B
    by (now rewrite G3, G3').
  rewrite !preFinal_net, F1, F8, F4, B.
  assert (bd_netTitleAdditive (snd (calculateStatWithBreakdown s c))
          <= bd_netTitleAdditive (snd (calculateStatWithBreakdown s c'))); [|lra].
  rewrite !bd_netTitleAdditive_eq, F2, F6, F7, G5, G5', G1, G1'.
  destruct (smap_has zero_stats s && title_enabled t && String.eqb (b_stat b) s) eqn:D;
    try rewrite D in TA.
  - apply andb_true_iff in D. destruct D as [_ D]. apply String.eqb_eq in D. subst s.
    apply netTitle_le; [| exact Htm | |].
    + rewrite TA.
      assert (title_bonus_additive b <= title_bonus_additive (bump_bonus b a)); [|lra].
      rewrite (title_bonus_additive_novalue b Hv).
      rewrite (title_bonus_additive_novalue (bump_bonus b a) Hv). exact Ha.
    + unfold title_early_out in E. rewrite G1 in E. exact E.
    + unfold title_early_out in E'. rewrite G1', F6, F7 in E'. exact E'.
  - apply Qle_lteq. right. apply netTitle_eq. rewrite TA. ring.
Qed.

Lemma calc_boost_bump_le c bpre bs bpost a s :
  statBoosts c = bpre ++ bs :: bpost -> boost_additive bs <= a ->
  fst (calculateStatWithBreakdown s c)
  <= fst (calculateStatWithBreakdown s (bump_boost_entry c bpre bs bpost a)).
Proof.
  intros Hc Ha.
  pose proof (boost_bump_additive c bpre bs bpost a s Hc) as BA.
  pose proof (boost_bump_multiplier c bpre bs bpost a Hc) as BM.
  set (c' := bump_boost_entry c bpre bs bpost a) in *.
  destruct (calc_frame s c c' eq_refl eq_refl eq_refl eq_refl eq_refl)
    as (F1 & F2 & F3 & F4 & F5 & F6 & F7 & F8).
  destruct (calc_bonus_fields s c) as (G1 & G2 & G3 & G4 & G5).
  destruct (calc_bonus_fields s c') as (G1' & G2' & G3' & G4' & G5').
  apply calc_mono; [reflexivity | now rewrite G5, G5' | now rewrite G2, G2'
                   | exact F3 | now rewrite G4, G4', BM | exact F5 |].
  rewrite !preFinal_net, F1, F8, F4, G3, G3'.
  assert (bd_netTitleAdditive (snd (calculateStatWithBreakdown s c'))
          = bd_netTitleAdditive (snd (calculateStatWithBreakdown s c))) as N.
  { rewrite !bd_netTitleAdditive_eq, F2, F6, F7, G5, G5', G1, G1'. reflexivity. }
  rewrite N, BA.
  destruct (smap_has zero_stats s && boost_enabled bs && String.eqb (boost_stat bs) s); [|lra].
  rewrite !jsor_0. lra.
Qed.

(** C4 (code bug): raising a title's additive strength bonus from 4 to 5
    lowers the resolved strength from 13 to 10. The snapshot recorded a raw title
    additive of 5 under trait multiplier 1; the trait now doubles strength. At 4
    the net title additive is 4 * 2 - 5 * 1 = 3; at 5 step 9 takes the early-out
    (current raw equals snapshot raw) and the net is 0. *)
Lemma C4_title_increase_decreases_cex :
  titles (c2_char 4) = [] ++ strength_title 4 :: []
  /\ title_bonuses (strength_title 4) = [] ++ strength_bonus 4 :: []
  /\ b_additive (strength_bonus 4) <= 5
  /\ stat_of (c2_char 4) "strength"%string = Some 13
  /\ stat_of (bump_title_entry (c2_char 4) [] (strength_title 4) [] [] (strength_bonus 4) [] 5)
       "strength"%string = Some 10.
Proof.
  split; [reflexivity|]. split; [reflexivity|]. split; [vm_compute; intros H; discriminate H|].
  split; vm_compute; reflexivity.
Qed.

(** X: raising the additive value of one stat boost never lowers any
    resolved stat, provided every derivation percent is nonnegative. *)
Theorem statBoost_additive_monotone c bpre bs bpost a s v v' :
  statBoosts c = bpre ++ bs :: bpost -> boost_additive bs <= a ->
  derivation_percents_nonneg c ->
  stat_of c s = Some v -> stat_of (bump_boost_entry c bpre bs bpost a) s = Some v' ->
  v <= v'.
Proof.
  intros Hc Ha Hp H1 H2.
  refine (stat_of_mono c (bump_boost_entry c bpre bs bpost a)
            eq_refl eq_refl eq_refl Hp _ s v v' H1 H2).
  intros s0. now apply calc_boost_bump_le.
Qed.

Lemma statBoost_additive_monotone_witness :
  stat_of c4_char "strength"%string = Some 2
  /\ stat_of (bump_boost_entry c4_char [] (strength_boost 1) [] 3) "strength"%string = Some 4
  /\ 2 <= 4.
Proof.
  split; [vm_compute; reflexivity|]. split; [vm_compute; reflexivity|].
  apply (statBoost_additive_monotone c4_char [] (strength_boost 1) [] 3
           "strength"%string 2 4);
    try reflexivity; try (vm_compute; reflexivity);
    try (vm_compute; intros H; discriminate H).
  intros d Hd. vm_compute in Hd. destruct Hd.
Defined.

(** * Further properties of the calculator and its callers *)

(** ** Snapshot selection *)

Lemma getMostRecentSnapshotLevel_spec snaps cur :
  match getMostRecentSnapshotLevel snaps cur with
  | Some l => In l (map fst snaps) /\ (l <= cur)%Z
              /\ forall k, In k (map fst snaps) -> (k <= cur)%Z -> (k <= l)%Z
  | None => forall k, In k (map fst snaps) -> (cur < k)%Z
  end.
Proof.
  induction snaps as [|[k0 s0] r IH]; simpl; [intros k []|].
  destruct (getMostRecentSnapshotLevel r cur) as [b|] eqn:E;
    destruct (Z.leb_spec k0 cur) as [H0|H0].
  - destruct IH as (Hin & Hb & Hmax). split; [|split].
    + destruct (Z.max_spec k0 b) as [[_ ->]|[_ ->]]; auto.
    + lia.
    + intros k [<-|Hk] Hk'; [lia|]. specialize (Hmax k Hk Hk'). lia.
  - destruct IH as (Hin & Hb & Hmax). split; [now right|split; [exact Hb|]].
    intros k [<-|Hk] Hk'; [lia|]. exact (Hmax k Hk Hk').
  - split; [now left|split; [exact H0|]].
    intros k [<-|Hk] Hk'; [lia|]. specialize (IH k Hk). lia.
  - intros k [<-|Hk]; [lia|]. exact (IH k Hk).
Qed.

(** X: [getMostRecentSnapshotLevel] returns the greatest snapshot level not
    above the current level, and [null] exactly when every snapshot level is
    above it. *)
Theorem getMostRecentSnapshotLevel_greatest snaps cur :
  (getMostRecentSnapshotLevel snaps cur = None
   <-> forall k, In k (map fst snaps) -> (cur < k)%Z)
  /\ (forall l, getMostRecentSnapshotLevel snaps cur = Some l
      <-> In l (map fst snaps) /\ (l <= cur)%Z
          /\ forall k, In k (map fst snaps) -> (k <= cur)%Z -> (k <= l)%Z).
Proof.
  pose proof (getMostRecentSnapshotLevel_spec snaps cur) as H.
  split.
  - destruct (getMostRecentSnapshotLevel snaps cur) as [l|].
    + split; [discriminate|]. intros Hall. destruct H as (Hin & Hl & _).
      specialize (Hall l Hin). lia.
    + split; [intros _; exact H|reflexivity].
  - intros l. destruct (getMostRecentSnapshotLevel snaps cur) as [l'|].
    + split.
      * intros E. injection E as <-. exact H.
      * intros (Hin & Hl & Hmax). destruct H as (Hin' & Hl' & Hmax').
        specialize (Hmax l' Hin' Hl'). specialize (Hmax' l Hin Hl).
        f_equal. lia.
    + split; [discriminate|]. intros (Hin & Hl & _). specialize (H l Hin). lia.
Qed.

(** ** Current class *)

Lemma find_first {A} (f : A -> bool) pre x post :
  forallb (fun y => negb (f y)) pre = true -> f x = true ->
  find f (pre ++ x :: post) = Some x.
Proof.
  intros Hpre Hx. induction pre as [|y pre IH]; simpl in *; [now rewrite Hx|].
  apply andb_true_iff in Hpre. destruct Hpre as [Hy Hpre].
  destruct (f y); [discriminate|]. now apply IH.
Qed.

Lemma find_none {A} (f : A -> bool) l :
  forallb (fun y => negb (f y)) l = true -> find f l = None.
Proof.
  induction l as [|y l IH]; simpl; [reflexivity|].
  intros H. apply andb_true_iff in H. destruct H as [Hy H].
  destruct (f y); [discriminate|]. now apply IH.
Qed.

(** X: [getCurrentClass] returns [null] only for an empty history; otherwise
    the first class whose range [[startLevel || 0, endLevel || Infinity]]
    contains the level, and the last class when none does. *)
Theorem getCurrentClass_first_covering ch lvl :
  (getCurrentClass ch lvl = None <-> ch = [])
  /\ (forall pre cls post, ch = pre ++ cls :: post ->
        forallb (fun c => negb (class_covers lvl c)) pre = true ->
        class_covers lvl cls = true ->
        getCurrentClass ch lvl = Some cls)
  /\ (forall cls0 rest, ch = cls0 :: rest ->
        forallb (fun c => negb (class_covers lvl c)) ch = true ->
        getCurrentClass ch lvl = Some (last ch cls0)).
Proof.
  split; [|split].
  - destruct ch as [|c0 r]; simpl; [tauto|].
    split; [|discriminate]. destruct (class_covers lvl c0); [discriminate|].
    destruct (find (class_covers lvl) r); discriminate.
  - intros pre cls post -> Hpre Hc. unfold getCurrentClass.
    rewrite (find_first _ pre cls post Hpre Hc).
    destruct pre; reflexivity.
  - intros cls0 rest -> Hall. unfold getCurrentClass.
    rewrite (find_none _ _ Hall). reflexivity.
Qed.

(** ** Trait Effect Resolver *)

Lemma getRedirectedFreePoints_shape ts lvl from :
  match getRedirectedFreePoints ts lvl from with
  | (None, p) => p = 0
  | (Some t, p) => t <> ""%string /\ p = 3 * inject_Z (Z.max 0 (lvl - from))
  end.
Proof.
  induction ts as [|t r IH]; simpl; [reflexivity|].
  destruct (find_redirect (effects t)) as [x|]; [|exact IH].
  destruct (String.eqb x "") eqn:E; [exact IH|].
  split; [now apply String.eqb_neq|reflexivity].
Qed.

(** X: [getRedirectedFreePoints] has no target exactly when no trait's first
    [redirect_free_points] effect names a non-empty stat; without a target it
    gives 0 points, with one [3 * max(0, level - fromLevel)], never negative. *)
Theorem getRedirectedFreePoints_points ts lvl from :
  (fst (getRedirectedFreePoints ts lvl from) = None
   <-> Forall (fun t => forall x, find_redirect (effects t) = Some x -> x = ""%string) ts)
  /\ snd (getRedirectedFreePoints ts lvl from)
     = match fst (getRedirectedFreePoints ts lvl from) with
       | None => 0
       | Some _ => 3 * inject_Z (Z.max 0 (lvl - from))
       end
  /\ 0 <= snd (getRedirectedFreePoints ts lvl from).
Proof.
  pose proof (getRedirectedFreePoints_shape ts lvl from) as H.
  split.
  2:{ destruct (getRedirectedFreePoints ts lvl from) as [[t|] p]; simpl.
      - destruct H as [_ H]. rewrite H. split; [reflexivity|].
        apply Qmult_le_0_compat; [discriminate|].
        change 0 with (inject_Z 0). rewrite <- Zle_Qle. lia.
      - rewrite H. split; [reflexivity|apply Qle_refl]. }
  clear H. induction ts as [|t r IH]; simpl; [split; auto|].
  destruct (find_redirect (effects t)) as [x|] eqn:F.
  - destruct (String.eqb x "") eqn:E.
    + apply String.eqb_eq in E. subst x. rewrite IH. split.
      * intros Hr. constructor; [|exact Hr]. intros y Hy. congruence.
      * intros Hf. inversion Hf. assumption.
    + simpl. split; [discriminate|]. intros Hf. inversion Hf as [|? ? Ht _].
      specialize (Ht x F). subst x. discriminate.
  - rewrite IH. split.
    + intros Hr. constructor; [|exact Hr]. intros y Hy. congruence.
    + intros Hf. inversion Hf. assumption.
Qed.

(** ** Bonus Aggregator *)

Lemma zero_stats_in s : In s ALL_STATS -> smap_get zero_stats s = Some 0.
Proof.
  intros H. simpl in H.
  repeat (destruct H as [H|H]; [subst s; reflexivity|]). destruct H.
Qed.

Lemma smap_get_const_notin (l : list string) (v : Q) k :
  ~ In k l -> smap_get (map (fun s => (s, v)) l) k = None.
Proof.
  induction l as [|x l IH]; simpl; intros H; [reflexivity|].
  destruct (String.eqb k x) eqn:E.
  - apply String.eqb_eq in E. subst. exfalso. apply H. now left.
  - apply IH. intros Hk. apply H. now right.
Qed.

Lemma smap_add_if_keys m k v : map fst (smap_add_if m k v) = map fst m.
Proof. unfold smap_add_if. destruct (smap_get m k); [apply smap_set_keys|reflexivity]. Qed.

Lemma add_all_keys {A} (key : A -> string) (val : A -> Q) xs m :
  map fst (add_all key val xs m) = map fst m.
Proof.
  revert m. induction xs as [|x xs IH]; intros m; [reflexivity|].
  unfold add_all in *. simpl. rewrite IH. apply smap_add_if_keys.
Qed.

Lemma add_all_zero_stats {A} (key : A -> string) (val : A -> Q) xs s :
  map fst (add_all key val xs zero_stats) = ALL_STATS
  /\ (~ In s ALL_STATS -> smap_get (add_all key val xs zero_stats) s = None)
  /\ (In s ALL_STATS -> exists v, smap_get (add_all key val xs zero_stats) s = Some v
                                  /\ v == sum_for key val xs s).
Proof.
  pose proof (add_all_get key val xs zero_stats s) as H.
  split; [rewrite add_all_keys; reflexivity|split].
  - intros Hs. pose proof (smap_get_const_notin ALL_STATS 0 s Hs) as Z.
    fold zero_stats in Z. rewrite Z in H. exact H.
  - intros Hs. rewrite (zero_stats_in s Hs) in H. destruct H as [y [Hy Hy']].
    exists y. split; [exact Hy|]. rewrite Hy'. ring.
Qed.

(** X: the title additive and multiplier maps have exactly the eight stats as
    keys; a stat outside them is never added; the entry of a stat is the sum,
    over the bonuses of enabled titles on that stat, of [additive || value || 0]
    (resp. [multiplier || 0]). *)
Theorem title_bonus_maps ts s :
  map fst (getTitleAdditiveBonuses ts) = ALL_STATS
  /\ map fst (getTitleMultiplierBonuses ts) = ALL_STATS
  /\ (~ In s ALL_STATS ->
        smap_get (getTitleAdditiveBonuses ts) s = None
        /\ smap_get (getTitleMultiplierBonuses ts) s = None)
  /\ (In s ALL_STATS ->
        (exists v, smap_get (getTitleAdditiveBonuses ts) s = Some v
           /\ v == sum_for b_stat title_bonus_additive (enabled_bonuses ts) s)
        /\ (exists w, smap_get (getTitleMultiplierBonuses ts) s = Some w
           /\ w == sum_for b_stat (fun b => jsor (b_multiplier b) 0) (enabled_bonuses ts) s)).
Proof.
  rewrite getTitleAdditiveBonuses_flat, getTitleMultiplierBonuses_flat.
  destruct (add_all_zero_stats b_stat title_bonus_additive (enabled_bonuses ts) s)
    as (K1 & N1 & S1).
  destruct (add_all_zero_stats b_stat (fun b => jsor (b_multiplier b) 0) (enabled_bonuses ts) s)
    as (K2 & N2 & S2).
  split; [exact K1|split; [exact K2|split]].
  - intros Hs. split; [exact (N1 Hs)|exact (N2 Hs)].
  - intros Hs. split; [exact (S1 Hs)|exact (S2 Hs)].
Qed.

(** X: the stat boost additive and multiplier maps have exactly the eight
    stats as keys; a boost on another stat is never added; the entry of a stat
    is the sum, over the enabled boosts on that stat, of [additive || 0]
    (resp. [multiplier || 0]). *)
Theorem statBoost_bonus_maps bs s :
  map fst (getStatBoostAdditiveBonuses bs) = ALL_STATS
  /\ map fst (getStatBoostMultiplierBonuses bs) = ALL_STATS
  /\ (~ In s ALL_STATS ->
        smap_get (getStatBoostAdditiveBonuses bs) s = None
        /\ smap_get (getStatBoostMultiplierBonuses bs) s = None)
  /\ (In s ALL_STATS ->
        (exists v, smap_get (getStatBoostAdditiveBonuses bs) s = Some v
           /\ v == sum_for boost_stat (fun b => jsor (boost_additive b) 0) (enabled_boosts bs) s)
        /\ (exists w, smap_get (getStatBoostMultiplierBonuses bs) s = Some w
           /\ w == sum_for boost_stat (fun b => jsor (boost_multiplier b) 0)
                    (enabled_boosts bs) s)).
Proof.
  rewrite getStatBoostAdditiveBonuses_flat, getStatBoostMultiplierBonuses_flat.
  destruct (add_all_zero_stats boost_stat (fun b => jsor (boost_additive b) 0)
              (enabled_boosts bs) s) as (K1 & N1 & S1).
  destruct (add_all_zero_stats boost_stat (fun b => jsor (boost_multiplier b) 0)
              (enabled_boosts bs) s) as (K2 & N2 & S2).
  split; [exact K1|split; [exact K2|split]].
  - intros Hs. split; [exact (N1 Hs)|exact (N2 Hs)].
  - intros Hs. split; [exact (S1 Hs)|exact (S2 Hs)].
Qed.

(** ** What the resolution depends on *)

Lemma calc_congr s c c' :
  level c' = level c -> classHistory c' = classHistory c ->
  levelSnapshots c' = levelSnapshots c -> freePoints c' = freePoints c ->
  traits c' = traits c ->
  getTitleAdditiveBonuses (titles c') = getTitleAdditiveBonuses (titles c) ->
  getTitleMultiplierBonuses (titles c') = getTitleMultiplierBonuses (titles c) ->
  getStatBoostAdditiveBonuses (statBoosts c') = getStatBoostAdditiveBonuses (statBoosts c) ->
  getStatBoostMultiplierBonuses (statBoosts c')
    = getStatBoostMultiplierBonuses (statBoosts c) ->
  calculateStatWithBreakdown s c' = calculateStatWithBreakdown s c.
Proof.
  intros Hl Hch Hls Hfp Ht H1 H2 H3 H4.
  assert (Hs : current_snapshot c' = current_snapshot c)
    by (unfold current_snapshot; now rewrite Hl, Hls).
  assert (Hcs : calculateClassScaling c' = calculateClassScaling c)
    by (unfold calculateClassScaling; now rewrite Hch, Hl).
  unfold calculateStatWithBreakdown. rewrite Hs, Hcs, Hl, Hfp, Ht, H1, H2, H3, H4.
  reflexivity.
Qed.

Lemma calculateAllStats_congr c c' :
  level c' = level c -> classHistory c' = classHistory c ->
  levelSnapshots c' = levelSnapshots c -> freePoints c' = freePoints c ->
  traits c' = traits c -> statDerivations c' = statDerivations c ->
  getTitleAdditiveBonuses (titles c') = getTitleAdditiveBonuses (titles c) ->
  getTitleMultiplierBonuses (titles c') = getTitleMultiplierBonuses (titles c) ->
  getStatBoostAdditiveBonuses (statBoosts c') = getStatBoostAdditiveBonuses (statBoosts c) ->
  getStatBoostMultiplierBonuses (statBoosts c')
    = getStatBoostMultiplierBonuses (statBoosts c) ->
  calculateAllStats c' = calculateAllStats c.
Proof.
  intros Hl Hch Hls Hfp Ht Hd H1 H2 H3 H4.
  assert (H : forall s, calculateStatWithBreakdown s c' = calculateStatWithBreakdown s c)
    by (intros s; now apply calc_congr).
  assert (Hs : current_snapshot c' = current_snapshot c)
    by (unfold current_snapshot; now rewrite Hl, Hls).
  assert (E1 : map (fun s => (s, fst (calculateStatWithBreakdown s c'))) ALL_STATS
               = map (fun s => (s, fst (calculateStatWithBreakdown s c))) ALL_STATS)
    by (apply map_ext; intros s; now rewrite H).
  assert (E2 : map (fun s => (s, snd (calculateStatWithBreakdown s c'))) ALL_STATS
               = map (fun s => (s, snd (calculateStatWithBreakdown s c))) ALL_STATS)
    by (apply map_ext; intros s; now rewrite H).
  unfold calculateAllStats, first_pass. rewrite E1, E2, Hs, Ht, Hd. reflexivity.
Qed.

Lemma enabled_bonuses_drop tpre t tpost :
  title_enabled t = false ->
  enabled_bonuses (tpre ++ t :: tpost) = enabled_bonuses (tpre ++ tpost).
Proof.
  intros He. unfold enabled_bonuses. rewrite !flat_map_app. simpl. now rewrite He.
Qed.

(** X: a disabled title ([enabled === false]) has no effect on the resolved
    stats or breakdowns: inserting it anywhere in the title list changes
    nothing. *)
Theorem disabled_title_ignored c tpre t tpost :
  title_enabled t = false ->
  calculateAllStats (with_titles c (tpre ++ t :: tpost))
  = calculateAllStats (with_titles c (tpre ++ tpost)).
Proof.
  intros He.
  apply calculateAllStats_congr; try reflexivity; cbn [titles with_titles].
  - rewrite !getTitleAdditiveBonuses_flat. now rewrite enabled_bonuses_drop.
  - rewrite !getTitleMultiplierBonuses_flat. now rewrite enabled_bonuses_drop.
Qed.

Lemma disabled_title_ignored_witness :
  title_enabled {| title_name := "faded"; title_enabled := false;
                   title_bonuses := title_bonuses (strength_title 7) |}%string = false
  /\ calculateAllStats
       (with_titles c4_char
          ([] ++ {| title_name := "faded"; title_enabled := false;
                    title_bonuses := title_bonuses (strength_title 7) |}%string
              :: [strength_title 1]))
     = calculateAllStats (with_titles c4_char ([] ++ [strength_title 1])).
Proof.
  split; [reflexivity|].
  apply disabled_title_ignored. reflexivity.
Defined.

(** ** Stat boost list handlers *)

Lemma filter_index_below {A} (index start : nat) (l : list A) :
  (index < start)%nat -> filter_index index start l = l.
Proof.
  revert start. induction l as [|x r IH]; intros start H; simpl; [reflexivity|].
  destruct (Nat.eqb_spec start index); [lia|]. f_equal. apply IH. lia.
Qed.

Lemma filter_index_split {A} (l1 l2 : list A) y start :
  filter_index (start + length l1) start (l1 ++ y :: l2) = l1 ++ l2.
Proof.
  revert start. induction l1 as [|x r IH]; intros start; simpl.
  - rewrite Nat.add_0_r, Nat.eqb_refl. apply filter_index_below. lia.
  - destruct (Nat.eqb_spec start (start + S (length r))); [lia|]. f_equal.
    replace (start + S (length r))%nat with (S start + length r)%nat by lia. apply IH.
Qed.

Lemma list_set_split {A} (l1 l2 : list A) y x :
  list_set (l1 ++ y :: l2) (length l1) x = l1 ++ x :: l2.
Proof. induction l1 as [|z r IH]; simpl; [reflexivity|now rewrite IH]. Qed.

Lemma nth_error_split_app {A} (l : list A) i b :
  nth_error l i = Some b -> exists l1 l2, l = l1 ++ b :: l2 /\ length l1 = i.
Proof. apply nth_error_split. Qed.

Lemma enabled_boosts_drop bpre b bpost :
  boost_enabled b = false ->
  enabled_boosts (bpre ++ b :: bpost) = enabled_boosts (bpre ++ bpost).
Proof. intros He. unfold enabled_boosts. rewrite !filter_app. simpl. now rewrite He. Qed.

Lemma boost_maps_drop c bpre b bpost :
  boost_enabled b = false ->
  calculateAllStats (with_statBoosts c (bpre ++ b :: bpost))
  = calculateAllStats (with_statBoosts c (bpre ++ bpost)).
Proof.
  intros He.
  apply calculateAllStats_congr; try reflexivity; cbn [statBoosts with_statBoosts].
  - rewrite !getStatBoostAdditiveBonuses_flat. now rewrite enabled_boosts_drop.
  - rewrite !getStatBoostMultiplierBonuses_flat. now rewrite enabled_boosts_drop.
Qed.

(** X: [handleToggleBoost(index)] fails exactly when [index] is past the end
    of the boost list; switching off an enabled boost gives the same resolved
    stats and breakdowns as deleting it with [handleDeleteBoost(index)]. *)
Theorem toggle_off_is_delete c i b :
  (handleToggleBoost c i = None <-> (length (statBoosts c) <= i)%nat)
  /\ (nth_error (statBoosts c) i = Some b -> boost_enabled b = true ->
      exists c', handleToggleBoost c i = Some c'
                 /\ calculateAllStats c' = calculateAllStats (handleDeleteBoost c i)).
Proof.
  split.
  - unfold handleToggleBoost. rewrite <- nth_error_None.
    destruct (nth_error (statBoosts c) i); split; congruence.
  - intros Hn He. unfold handleToggleBoost. rewrite Hn. eexists. split; [reflexivity|].
    destruct (nth_error_split_app _ _ _ Hn) as (l1 & l2 & Hl & Hlen).
    unfold handleDeleteBoost. rewrite Hl, <- Hlen, list_set_split.
    pose proof (filter_index_split l1 l2 b 0) as F. cbn [Nat.add] in F.
    rewrite F, He.
    apply (boost_maps_drop c l1 _ l2). reflexivity.
Qed.

Lemma toggle_off_is_delete_witness :
  nth_error (statBoosts c4_char) 0 = Some (strength_boost 1)
  /\ boost_enabled (strength_boost 1) = true
  /\ exists c', handleToggleBoost c4_char 0 = Some c'
                /\ calculateAllStats c' = calculateAllStats (handleDeleteBoost c4_char 0).
Proof.
  split; [reflexivity|split; [reflexivity|]].
  apply (proj2 (toggle_off_is_delete c4_char 0 (strength_boost 1))); reflexivity.
Defined.

(** X: toggling the same boost twice leaves every resolved stat and every
    breakdown as they were (a boost without an [enabled] key comes back with
    [enabled: true], which the calculator reads the same way). *)
Theorem toggle_twice c i c' c'' :
  handleToggleBoost c i = Some c' -> handleToggleBoost c' i = Some c'' ->
  calculateAllStats c'' = calculateAllStats c.
Proof.
  unfold handleToggleBoost. destruct (nth_error (statBoosts c) i) as [b|] eqn:Hn;
    [|discriminate].
  intros H. injection H as <-. cbn [statBoosts with_statBoosts].
  destruct (nth_error_split_app _ _ _ Hn) as (l1 & l2 & Hl & Hlen).
  rewrite Hl, <- Hlen, list_set_split, nth_error_app2, Nat.sub_diag by lia. simpl.
  intros H. injection H as <-.
  rewrite list_set_split, negb_involutive.
  destruct b. cbn [boost_description boost_stat boost_additive boost_multiplier boost_enabled].
  rewrite <- Hl. destruct c. reflexivity.
Qed.

Lemma toggle_twice_witness :
  exists c' c'', handleToggleBoost c4_char 0 = Some c'
             /\ handleToggleBoost c' 0 = Some c''
             /\ calculateAllStats c'' = calculateAllStats c4_char.
Proof.
  eexists. eexists. split; [reflexivity|]. split; [reflexivity|].
  eapply (toggle_twice c4_char 0); reflexivity.
Defined.

(** ** Shape of the resolver's output *)

Lemma smap_get_map_in (f : string -> Q) l k :
  In k l -> smap_get (map (fun s => (s, f s)) l) k = Some (f k).
Proof.
  induction l as [|x l IH]; simpl; [tauto|]. intros H.
  destruct (String.eqb k x) eqn:E.
  - apply String.eqb_eq in E. now subst.
  - apply IH. destruct H as [H|H]; [subst; now rewrite String.eqb_refl in E|exact H].
Qed.

Lemma smap_get_map_some (f : string -> Q) l k v :
  smap_get (map (fun s => (s, f s)) l) k = Some v -> In k l.
Proof.
  induction l as [|x l IH]; simpl; [discriminate|].
  destruct (String.eqb k x) eqn:E; intros H.
  - left. symmetry. now apply String.eqb_eq.
  - right. exact (IH H).
Qed.

Lemma bdmap_get_map_in (f : string -> breakdown) l k :
  In k l -> bdmap_get (map (fun s => (s, f s)) l) k = Some (f k).
Proof.
  induction l as [|x l IH]; simpl; [tauto|]. intros H.
  destruct (String.eqb k x) eqn:E.
  - apply String.eqb_eq in E. now subst.
  - apply IH. destruct H as [H|H]; [subst; now rewrite String.eqb_refl in E|exact H].
Qed.

Lemma bdmap_update_keys m k f : map fst (bdmap_update m k f) = map fst m.
Proof.
  induction m as [|[k' b] r IH]; simpl; [reflexivity|].
  destruct (String.eqb k k'); simpl; [reflexivity|]. now rewrite IH.
Qed.

Lemma bdmap_get_update m k f s :
  bdmap_get (bdmap_update m k f) s =
  if String.eqb s k then option_map f (bdmap_get m s) else bdmap_get m s.
Proof.
  induction m as [|[k' b] r IH]; simpl.
  - now destruct (String.eqb s k).
  - destruct (String.eqb k k') eqn:E1; simpl.
    + apply String.eqb_eq in E1. subst k'. destruct (String.eqb s k); reflexivity.
    + rewrite IH. destruct (String.eqb s k') eqn:E2; [|reflexivity].
      apply String.eqb_eq in E2. subst k'.
      destruct (String.eqb s k) eqn:E3; [|reflexivity].
      apply String.eqb_eq in E3. subst k. now rewrite String.eqb_refl in E1.
Qed.

Lemma derivation_step_bd_keys b snap acc d :
  map fst (snd (derivation_step b snap acc d)) = map fst (snd acc).
Proof.
  destruct acc as [st bds]. unfold derivation_step. cbn [snd].
  destruct (smap_get st (sourceStat d)), (smap_get st (targetStat d));
    try reflexivity.
  apply bdmap_update_keys.
Qed.

Lemma fold_derivation_bd_keys b snap ds acc :
  map fst (snd (fold_left (derivation_step b snap) ds acc)) = map fst (snd acc).
Proof.
  revert acc. induction ds as [|d ds IH]; intros acc; simpl; [reflexivity|].
  rewrite IH. apply derivation_step_bd_keys.
Qed.

Lemma fold_derive_keys snap ds m :
  map fst (fold_left (derive_stats snap) ds m) = map fst m.
Proof.
  revert m. induction ds as [|d ds IH]; intros m; simpl; [reflexivity|].
  rewrite IH. apply derive_stats_keys.
Qed.

Lemma fold_derive_untargeted snap ds m k :
  (forall d, In d ds -> targetStat d <> k) ->
  smap_get (fold_left (derive_stats snap) ds m) k = smap_get m k.
Proof.
  revert m. induction ds as [|d ds IH]; intros m H; simpl; [reflexivity|].
  rewrite IH by (intros; apply H; now right).
  apply derive_stats_other. intros E. apply (H d); [now left|symmetry; exact E].
Qed.

(** X: [calculateAllStats] returns a stat map and a breakdown map keyed by
    exactly the eight stats, in [ALL_STATS] order; a name outside them has no
    value; a stat that no derivation rule (trait-sourced or character-level)
    targets keeps the value the Delta Composer gave it. *)
Theorem calculateAllStats_frame c s :
  map fst (fst (calculateAllStats c)) = ALL_STATS
  /\ map fst (snd (calculateAllStats c)) = ALL_STATS
  /\ (~ In s ALL_STATS -> stat_of c s = None)
  /\ (In s ALL_STATS ->
      (forall d, In d (getStatDerivations (traits c) ++ statDerivations c) ->
                 targetStat d <> s) ->
      stat_of c s = Some (fst (calculateStatWithBreakdown s c))).
Proof.
  split; [|split; [|split]].
  - rewrite calculateAllStats_stats, fold_derive_keys. unfold first_pass; cbn [fst].
    rewrite map_map. apply map_id.
  - unfold calculateAllStats. rewrite !fold_derivation_bd_keys. unfold first_pass; cbn [snd].
    rewrite map_map. apply map_id.
  - intros Hs. unfold stat_of. apply (smap_get_keys (fst (calculateAllStats c)) zero_stats).
    + rewrite calculateAllStats_stats, fold_derive_keys. unfold first_pass, zero_stats.
      cbn [fst]. rewrite !map_map. reflexivity.
    + exact (smap_get_const_notin ALL_STATS 0 s Hs).
  - intros Hs Hd. unfold stat_of. rewrite calculateAllStats_stats, fold_derive_untargeted
      by exact Hd.
    unfold first_pass; cbn [fst]. apply (smap_get_map_in (fun s => fst (calculateStatWithBreakdown s c))).
    exact Hs.
Qed.

Lemma derivation_step_consistent a snap p d :
  bd_consistent p -> bd_consistent (derivation_step a snap p d).
Proof.
  destruct p as [st bds]. intros H. unfold derivation_step.
  destruct (smap_get st (sourceStat d)) as [vs|] eqn:Es; [|exact H].
  destruct (smap_get st (targetStat d)) as [vt|] eqn:Et; [|exact H].
  unfold bd_consistent in *. cbn [fst snd] in *.
  intros k v Hk. cbn [fst snd] in *. rewrite bdmap_get_update.
  destruct (String.eqb k (targetStat d)) eqn:E.
  - apply String.eqb_eq in E. subst k.
    destruct (H _ _ Et) as [b [Hb _]]. rewrite Hb. cbn [option_map].
    eexists; split; [reflexivity|]. cbn [set_derivation bd_final]. rewrite Hk.
    unfold num_or. apply jsor_0.
  - apply String.eqb_neq in E. rewrite derive_stats_other in Hk by exact E.
    exact (H _ _ Hk).
Qed.

Lemma fold_derivation_consistent a snap ds p :
  bd_consistent p -> bd_consistent (fold_left (derivation_step a snap) ds p).
Proof.
  revert p. induction ds as [|d ds IH]; intros p H; simpl; [exact H|].
  apply IH. now apply derivation_step_consistent.
Qed.

Lemma first_pass_consistent c : bd_consistent (first_pass c).
Proof.
  intros k v Hk. unfold first_pass in *. cbn [fst snd] in *.
  pose proof (smap_get_map_some _ _ _ _ Hk) as Hin.
  rewrite (smap_get_map_in (fun s => fst (calculateStatWithBreakdown s c)) _ _ Hin) in Hk.
  injection Hk as <-.
  eexists; split; [exact (bdmap_get_map_in (fun s => snd (calculateStatWithBreakdown s c))
                             _ _ Hin)|].
  rewrite (proj2 (proj2 (proj2 (proj2 (proj2 (calc_shape k c)))))). apply Qeq_refl.
Qed.

(** X: the breakdown [calculateAllStats] returns for a stat always shows the
    resolved value: for every stat with a value [v], its breakdown exists and
    its [final] equals [v], also after derivation rules changed it. *)
Theorem calculateAllStats_breakdown_final c s v :
  stat_of c s = Some v ->
  exists b, bdmap_get (snd (calculateAllStats c)) s = Some b /\ bd_final b == v.
Proof.
  intros H. unfold stat_of in H.
  assert (C : bd_consistent (calculateAllStats c)).
  { unfold calculateAllStats. apply fold_derivation_consistent,
      fold_derivation_consistent, first_pass_consistent. }
  exact (C s v H).
Qed.

Lemma calculateAllStats_breakdown_final_witness :
  stat_of c7_char "intellect" = Some 15
  /\ exists b, bdmap_get (snd (calculateAllStats c7_char)) "intellect" = Some b
               /\ bd_final b == 15.
Proof.
  split; [vm_compute; reflexivity|].
  apply calculateAllStats_breakdown_final. vm_compute. reflexivity.
Defined.

(** ** Derived Resource Calculator and Bond Synchronizer *)

Lemma Qmin_stored_le x m : Qmin x m <= m.
Proof. apply Q.le_min_r. Qed.

Lemma Qmin_stored_eq x m : x <= m -> Qmin x m == x.
Proof. intros H. apply Q.min_l. exact H. Qed.

Lemma Qmin_same x : Qmin x x = x.
Proof. unfold Qmin, GenericMinMax.gmin. now destruct (x ?= x). Qed.

Lemma num_or_stored o m :
  (forall x, o = Some x -> ~ x == 0 -> num_or o m = x)
  /\ ((o = None \/ exists x, o = Some x /\ x == 0) -> num_or o m = m).
Proof.
  unfold num_or, jsor. split.
  - intros x -> Hx. destruct (Qeq_bool x 0) eqn:E; [|reflexivity].
    apply Qeq_bool_eq in E. contradiction.
  - intros [->|[x [-> Hx]]]; [reflexivity|]. apply Qeq_bool_iff in Hx. now rewrite Hx.
Qed.

(** X: the current HP and MP that [calculateDerivedStats] returns never exceed
    their maximum; a stored nonzero current value that fits under the maximum
    is returned unchanged, and a missing or zero stored value gives the
    maximum. *)
Theorem calculateDerivedStats_current st c bm :
  res_current (hp (calculateDerivedStats st c bm)) <= res_max (hp (calculateDerivedStats st c bm))
  /\ res_current (mp (calculateDerivedStats st c bm))
     <= res_max (mp (calculateDerivedStats st c bm))
  /\ (forall x, hp_current c = Some x -> ~ x == 0 ->
      x <= res_max (hp (calculateDerivedStats st c bm)) ->
      res_current (hp (calculateDerivedStats st c bm)) == x)
  /\ (forall x, mp_current c = Some x -> ~ x == 0 ->
      x <= res_max (mp (calculateDerivedStats st c bm)) ->
      res_current (mp (calculateDerivedStats st c bm)) == x)
  /\ ((hp_current c = None \/ exists x, hp_current c = Some x /\ x == 0) ->
      res_current (hp (calculateDerivedStats st c bm))
      = res_max (hp (calculateDerivedStats st c bm)))
  /\ ((mp_current c = None \/ exists x, mp_current c = Some x /\ x == 0) ->
      res_current (mp (calculateDerivedStats st c bm))
      = res_max (mp (calculateDerivedStats st c bm))).
Proof.
  unfold calculateDerivedStats; cbn [hp mp res_current res_max].
  split; [apply Qmin_stored_le|split; [apply Qmin_stored_le|split; [|split; [|split]]]].
  - intros x Hx Hx0 Hle. rewrite (proj1 (num_or_stored _ _) x Hx Hx0).
    now apply Qmin_stored_eq.
  - intros x Hx Hx0 Hle. rewrite (proj1 (num_or_stored _ _) x Hx Hx0).
    now apply Qmin_stored_eq.
  - intros H. rewrite (proj2 (num_or_stored _ _) H). apply Qmin_same.
  - intros H. rewrite (proj2 (num_or_stored _ _) H). apply Qmin_same.
Qed.

Lemma Math_round_near x :
  x - (1 # 2) < inject_Z (Math_round x) /\ inject_Z (Math_round x) <= x + (1 # 2).
Proof.
  unfold Math_round. split.
  - pose proof (Qlt_floor (x + (1 # 2))) as H. rewrite inject_Z_plus in H.
    change (inject_Z 1) with 1 in H. lra.
  - apply Qfloor_le.
Qed.

Lemma synced_shape (hasBond : bool) v :
  (hasBond = false -> (if negb hasBond || Qeq_bool (num_or v 0) 0 then 0
                       else inject_Z (Math_round (num_or v 0 / 2))) = 0)
  /\ ((v = None \/ exists x, v = Some x /\ x == 0) ->
      (if negb hasBond || Qeq_bool (num_or v 0) 0 then 0
       else inject_Z (Math_round (num_or v 0 / 2))) = 0)
  /\ (forall x, v = Some x -> hasBond = true -> ~ x == 0 ->
      x / 2 - (1 # 2) < (if negb hasBond || Qeq_bool (num_or v 0) 0 then 0
                         else inject_Z (Math_round (num_or v 0 / 2)))
      /\ (if negb hasBond || Qeq_bool (num_or v 0) 0 then 0
          else inject_Z (Math_round (num_or v 0 / 2))) <= x / 2 + (1 # 2)).
Proof.
  split; [intros ->; reflexivity|split].
  - intros H. rewrite (proj2 (num_or_stored v 0) H). now rewrite orb_true_r.
  - intros x -> -> Hx. rewrite (proj1 (num_or_stored (Some x) 0) x eq_refl Hx).
    cbn [negb orb]. destruct (Qeq_bool x 0) eqn:E.
    + apply Qeq_bool_eq in E. contradiction.
    + apply Math_round_near.
Qed.

(** X: [syncedManaForMain] is 0 without a bond or when the companion's mana is
    missing or 0; otherwise it is the companion's mana halved and rounded, so
    within one half of [mana / 2]. [syncedWillpowerForCompanion] does the same
    with the main character's willpower. *)
Theorem synced_values_half hasBond st :
  (hasBond = false -> syncedManaForMain hasBond st = 0
                      /\ syncedWillpowerForCompanion hasBond st = 0)
  /\ ((smap_get st "mana"%string = None
       \/ exists x, smap_get st "mana"%string = Some x /\ x == 0) ->
      syncedManaForMain hasBond st = 0)
  /\ ((smap_get st "willpower"%string = None
       \/ exists x, smap_get st "willpower"%string = Some x /\ x == 0) ->
      syncedWillpowerForCompanion hasBond st = 0)
  /\ (forall x, smap_get st "mana"%string = Some x -> hasBond = true -> ~ x == 0 ->
      x / 2 - (1 # 2) < syncedManaForMain hasBond st
      /\ syncedManaForMain hasBond st <= x / 2 + (1 # 2))
  /\ (forall x, smap_get st "willpower"%string = Some x -> hasBond = true -> ~ x == 0 ->
      x / 2 - (1 # 2) < syncedWillpowerForCompanion hasBond st
      /\ syncedWillpowerForCompanion hasBond st <= x / 2 + (1 # 2)).
Proof.
  unfold syncedManaForMain, syncedWillpowerForCompanion.
  destruct (synced_shape hasBond (smap_get st "mana"%string)) as (M1 & M2 & M3).
  destruct (synced_shape hasBond (smap_get st "willpower"%string)) as (W1 & W2 & W3).
  split; [intros H; split; [exact (M1 H)|exact (W1 H)]|].
  split; [exact M2|split; [exact W2|split; [exact M3|exact W3]]].
Qed.

(** ** Snapshot handlers *)

Ltac z_cases :=
  repeat match goal with
  | |- context [Z.eqb ?a ?b] =>
      let E := fresh "E" in
      destruct (Z.eqb a b) eqn:E; [apply Z.eqb_eq in E|apply Z.eqb_neq in E]
  end; simpl; try subst; try congruence.

Lemma snap_lookup_put snaps l s k :
  snap_lookup (snap_put snaps l s) k = if (k =? l)%Z then Some s else snap_lookup snaps k.
Proof.
  induction snaps as [|[k0 s0] r IH]; simpl; [z_cases|].
  destruct (Z.eqb k0 l) eqn:E0; simpl; [apply Z.eqb_eq in E0; subst k0; z_cases|].
  rewrite IH. apply Z.eqb_neq in E0. z_cases.
Qed.

Lemma snap_lookup_delete snaps l k :
  snap_lookup (snap_delete snaps l) k = if (k =? l)%Z then None else snap_lookup snaps k.
Proof.
  induction snaps as [|[k0 s0] r IH]; simpl; [now destruct (k =? l)%Z|].
  destruct (Z.eqb k0 l) eqn:E0; simpl; rewrite IH;
    [apply Z.eqb_eq in E0; subst k0|apply Z.eqb_neq in E0]; z_cases.
Qed.

Lemma snap_delete_put snaps l s : snap_delete (snap_put snaps l s) l = snap_delete snaps l.
Proof.
  induction snaps as [|[k0 s0] r IH]; simpl; [now rewrite Z.eqb_refl|].
  destruct (Z.eqb k0 l) eqn:E; simpl; rewrite E; [reflexivity|now rewrite IH].
Qed.

Lemma snap_put_keys snaps l s k : In k (map fst (snap_put snaps l s)) <-> k = l \/ In k (map fst snaps).
Proof.
  induction snaps as [|[k0 s0] r IH]; simpl; [intuition|].
  destruct (Z.eqb_spec k0 l) as [->|Hne]; simpl; [intuition|]. rewrite IH. intuition.
Qed.

(** X: saving a snapshot ([handleSaveSnapshot]) stores the plain stat object
    under its level and leaves every other level as it was; deleting one
    ([handleDeleteSnapshot]) removes the level and leaves the others; deleting
    a level just saved gives the same snapshots as deleting it before the
    save. *)
Theorem snapshot_save_delete c l k stats :
  snap_lookup (levelSnapshots (handleSaveSnapshot c l stats)) k
  = (if (k =? l)%Z then Some (flat_snapshot stats) else snap_lookup (levelSnapshots c) k)
  /\ snap_lookup (levelSnapshots (handleDeleteSnapshot c l)) k
     = (if (k =? l)%Z then None else snap_lookup (levelSnapshots c) k)
  /\ levelSnapshots (handleDeleteSnapshot (handleSaveSnapshot c l stats) l)
     = levelSnapshots (handleDeleteSnapshot c l).
Proof.
  unfold handleSaveSnapshot, handleDeleteSnapshot; cbn [levelSnapshots with_levelSnapshots].
  split; [apply snap_lookup_put|split; [apply snap_lookup_delete|apply snap_delete_put]].
Qed.

Lemma jsor_jsor_0 x : jsor (jsor x 0) 0 = jsor x 0.
Proof.
  unfold jsor. destruct (Qeq_bool x 0) eqn:E; [reflexivity|]. now rewrite E.
Qed.

Lemma dialog_value sn s :
  In s ALL_STATS ->
  getSnapshotStatValue (flat_snapshot (snapshot_dialog_stats (Some sn))) s
  = getSnapshotStatValue sn s.
Proof.
  intros Hs. unfold getSnapshotStatValue at 1, snapshot_dialog_stats, flat_snapshot.
  cbn [snap_stats snap_direct].
  rewrite (smap_get_map_in (fun stat => getSnapshotStatValue sn stat) _ _ Hs).
  unfold num_or. unfold getSnapshotStatValue.
  destruct (snap_stats sn) as [m|]; unfold num_or;
    [destruct (smap_get m s)|destruct (smap_get (snap_direct sn) s)];
    try apply jsor_jsor_0; reflexivity.
Qed.

(** X: editing a stored snapshot at a nonzero level and saving the dialog
    without edits keeps the snapshot at that level with the value of each of
    the eight stats, but the saved plain object drops the snapshot's record of
    included title, stat boost, trait multiplier and derivation bonuses: they
    read back as 0 (multiplier 1). Editing a snapshot stored at level 0 instead
    saves zeros at level 1, since [0] is falsy both in the [currentSnapshot]
    guard and in [level || 1]. *)
Theorem snapshot_dialog_unedited :
  (forall c l sn,
     l <> 0%Z -> snap_lookup (levelSnapshots c) l = Some sn ->
     exists sn',
       snap_lookup (levelSnapshots (snapshot_dialog_save c (Some l))) l = Some sn'
       /\ (forall s, In s ALL_STATS -> getSnapshotStatValue sn' s = getSnapshotStatValue sn s)
       /\ (forall s, inc_additive (getSnapshotIncludedTitleBonuses sn' s) == 0
                     /\ inc_multiplier (getSnapshotIncludedTitleBonuses sn' s) == 0
                     /\ inc_rawAdditive (getSnapshotIncludedTitleBonuses sn' s) == 0
                     /\ inc_traitMultiplier (getSnapshotIncludedTitleBonuses sn' s) == 1
                     /\ getSnapshotIncludedStatBoosts sn' s = (0, 0)
                     /\ getSnapshotIncludedDerivation (Some sn') s = 0))
  /\ (forall c,
        exists sn',
          snap_lookup (levelSnapshots (snapshot_dialog_save c (Some 0%Z))) 1 = Some sn'
          /\ (forall s, In s ALL_STATS -> getSnapshotStatValue sn' s = 0)).
Proof.
  split.
  - intros c l sn Hl Hs. exists (flat_snapshot (snapshot_dialog_stats (Some sn))). split.
    + unfold snapshot_dialog_save, dialog_save_level, dialog_current_snapshot, level_or_1,
        handleSaveSnapshot.
      apply Z.eqb_neq in Hl. rewrite Hl, Hs.
      cbn [levelSnapshots with_levelSnapshots].
      rewrite snap_lookup_put, Z.eqb_refl. reflexivity.
    + split; [apply dialog_value|]. intros s. repeat split.
  - intros c. exists (flat_snapshot (snapshot_dialog_stats None)). split.
    + unfold snapshot_dialog_save, handleSaveSnapshot.
      cbn [levelSnapshots with_levelSnapshots].
      rewrite snap_lookup_put. reflexivity.
    + intros s Hs. simpl in Hs.
      repeat (destruct Hs as [<-|Hs]; [vm_compute; reflexivity|]). destruct Hs.
Qed.

Lemma snapshot_dialog_unedited_witness :
  snap_lookup (levelSnapshots (c2_char 4)) 1 = Some c2_snapshot
  /\ exists sn',
    snap_lookup (levelSnapshots (snapshot_dialog_save (c2_char 4) (Some 1%Z))) 1 = Some sn'
    /\ (forall s, In s ALL_STATS -> getSnapshotStatValue sn' s = getSnapshotStatValue c2_snapshot s)
    /\ (forall s, inc_additive (getSnapshotIncludedTitleBonuses sn' s) == 0
                  /\ inc_multiplier (getSnapshotIncludedTitleBonuses sn' s) == 0
                  /\ inc_rawAdditive (getSnapshotIncludedTitleBonuses sn' s) == 0
                  /\ inc_traitMultiplier (getSnapshotIncludedTitleBonuses sn' s) == 1
                  /\ getSnapshotIncludedStatBoosts sn' s = (0, 0)
                  /\ getSnapshotIncludedDerivation (Some sn') s = 0).
Proof.
  split; [reflexivity|]. apply (proj1 snapshot_dialog_unedited); [discriminate|reflexivity].
Defined.

Lemma current_snapshot_take c :
  current_snapshot (handleTakeSnapshot c) = (Some (level c), Some (take_snapshot c)).
Proof.
  unfold current_snapshot, handleTakeSnapshot; cbn [levelSnapshots level with_levelSnapshots].
  pose proof (getMostRecentSnapshotLevel_spec
                (snap_put (levelSnapshots c) (level c) (take_snapshot c)) (level c)) as H.
  destruct (getMostRecentSnapshotLevel _ _) as [l|].
  - destruct H as (Hin & Hl & Hmax).
    specialize (Hmax (level c) (proj2 (snap_put_keys _ _ _ _) (or_introl eq_refl))
                  (Z.le_refl _)).
    assert (l = level c) as -> by lia.
    rewrite snap_lookup_put, Z.eqb_refl. reflexivity.
  - specialize (H (level c) (proj2 (snap_put_keys _ _ _ _) (or_introl eq_refl))). lia.
Qed.

Lemma bd_redirected_eq s c :
  bd_redirectedFreePoints (snd (calculateStatWithBreakdown s c))
  = match fst (getRedirectedFreePoints (traits c) (level c)
                 (from_level (fst (current_snapshot c)))) with
    | Some t => if String.eqb t s
                then snd (getRedirectedFreePoints (traits c) (level c)
                            (from_level (fst (current_snapshot c))))
                else 0
    | None => 0
    end.
Proof.
  unfold calculateStatWithBreakdown.
  destruct (current_snapshot c) as [sl [sn|]]; reflexivity.
Qed.

Lemma bd_snapshotBase_eq s c :
  bd_snapshotBase (snd (calculateStatWithBreakdown s c))
  = match snd (current_snapshot c) with
    | Some sn => getSnapshotStatValue sn s
    | None => 0
    end.
Proof.
  unfold calculateStatWithBreakdown.
  destruct (current_snapshot c) as [sl [sn|]]; reflexivity.
Qed.

Lemma class_contribution_same_level lvl s cls : class_contribution lvl lvl s cls = 0.
Proof.
  unfold class_contribution.
  assert (E : (Z.max (lvl + 1) ((if (startLevel cls =? 0)%Z then 1%Z else startLevel cls) + 1)
     <=? match endLevel cls with Some e => Z.min lvl e | None => lvl end)%Z = false).
  { apply Z.leb_gt. destruct (endLevel cls); lia. }
  now rewrite E.
Qed.

(** X: right after [handleTakeSnapshot], the snapshot that applies is the one
    just taken, at the character's level, and the other levels keep their
    snapshots; no stat then gets class growth or redirected free points, and
    each stat's base is the value the snapshot recorded for it. *)
Theorem handleTakeSnapshot_resets c :
  current_snapshot (handleTakeSnapshot c) = (Some (level c), Some (take_snapshot c))
  /\ (forall l, l <> level c ->
      snap_lookup (levelSnapshots (handleTakeSnapshot c)) l = snap_lookup (levelSnapshots c) l)
  /\ (forall s,
      bd_classScaling (snd (calculateStatWithBreakdown s (handleTakeSnapshot c))) == 0
      /\ bd_redirectedFreePoints (snd (calculateStatWithBreakdown s (handleTakeSnapshot c))) == 0
      /\ bd_snapshotBase (snd (calculateStatWithBreakdown s (handleTakeSnapshot c)))
         = getSnapshotStatValue (take_snapshot c) s).
Proof.
  pose proof (current_snapshot_take c) as Hc.
  split; [exact Hc|split].
  - intros l Hl. unfold handleTakeSnapshot; cbn [levelSnapshots with_levelSnapshots].
    rewrite snap_lookup_put. apply Z.eqb_neq in Hl. now rewrite Hl.
  - intros s. split; [|split].
    + rewrite bd_classScaling_eq, Hc. cbn [fst]. unfold calculateClassScaling.
      unfold handleTakeSnapshot at 2; cbn [level with_levelSnapshots].
      destruct (classHistory (handleTakeSnapshot c)); [apply Qeq_refl|].
      apply fold_sum_zero. intros cls _. rewrite class_contribution_same_level. apply Qeq_refl.
    + rewrite bd_redirected_eq, Hc. cbn [fst].
      change (level (handleTakeSnapshot c)) with (level c).
      pose proof (getRedirectedFreePoints_shape (traits (handleTakeSnapshot c)) (level c)
                    (from_level (Some (level c)))) as R.
      destruct (getRedirectedFreePoints _ _ _) as [[t|] p]; [|apply Qeq_refl].
      destruct R as [_ ->]. cbn [fst snd]. destruct (String.eqb t s); [|apply Qeq_refl].
      unfold from_level. destruct (Z.eqb_spec (level c) 0) as [E|E].
      * rewrite E. reflexivity.
      * rewrite Z.sub_diag. reflexivity.
    + rewrite bd_snapshotBase_eq, Hc. reflexivity.
Qed.

Lemma snapshot_direct_base_eq c s :
  snapshot_direct_base c s
  = match snd (current_snapshot c) with
    | Some sn => num_or (smap_get (snap_direct sn) s) 0
    | None => 0
    end.
Proof.
  unfold snapshot_direct_base, current_snapshot.
  destruct (getMostRecentSnapshotLevel _ _) as [l|];
    [destruct (snap_lookup _ l)|]; reflexivity.
Qed.

(** X: [calculateSnapshotStats] gives each of the eight stats (and nothing
    else) the rounded sum of the applicable snapshot's top-level value and the
    gains after the trait multiplier that [calculateStatWithBreakdown] computes,
    leaving out title and boost bonuses; a snapshot stored by
    [handleTakeSnapshot] keeps its values under [stats], so the base read from
    it is 0. *)
Theorem calculateSnapshotStats_gains c s :
  (In s ALL_STATS ->
   smap_get (calculateSnapshotStats c) s
   = Some (inject_Z (Math_round (snapshot_direct_base c s
                                 + bd_gainsAfterTrait (snd (calculateStatWithBreakdown s c))))))
  /\ (~ In s ALL_STATS -> smap_get (calculateSnapshotStats c) s = None)
  /\ snapshot_direct_base (handleTakeSnapshot c) s = 0.
Proof.
  split; [|split].
  - intros Hs. unfold calculateSnapshotStats.
    rewrite (smap_get_map_in (fun statName => inject_Z (Math_round _)) _ _ Hs).
    do 3 f_equal. unfold snapshot_direct_base.
    unfold calculateStatWithBreakdown, current_snapshot.
    destruct (getMostRecentSnapshotLevel (levelSnapshots c) (level c)) as [l|];
      [destruct (snap_lookup (levelSnapshots c) l)|]; reflexivity.
  - intros Hs. unfold calculateSnapshotStats.
    pose proof (smap_get_const_notin ALL_STATS 0 s Hs) as Z.
    apply (smap_get_keys _ (map (fun s => (s, 0)) ALL_STATS)); [|exact Z].
    rewrite !map_map. reflexivity.
  - rewrite snapshot_direct_base_eq, current_snapshot_take. cbn [snd].
    unfold take_snapshot. destruct (calculateAllStats c). reflexivity.
Qed.

(** ** Character updates *)

Lemma smap_get_assign m k v s :
  smap_get (smap_assign m k v) s = if String.eqb s k then Some v else smap_get m s.
Proof.
  induction m as [|[k' v'] r IH]; simpl; [now destruct (String.eqb s k)|].
  destruct (String.eqb k k') eqn:E1; simpl.
  - apply String.eqb_eq in E1. subst k'. now destruct (String.eqb s k).
  - rewrite IH. destruct (String.eqb s k') eqn:E2; [|reflexivity].
    apply String.eqb_eq in E2. subst k'.
    destruct (String.eqb s k) eqn:E3; [|reflexivity].
    apply String.eqb_eq in E3. subst k. now rewrite String.eqb_refl in E1.
Qed.

Lemma calc_freePoints_congr s c c' :
  level c' = level c -> classHistory c' = classHistory c ->
  levelSnapshots c' = levelSnapshots c -> traits c' = traits c ->
  titles c' = titles c -> statBoosts c' = statBoosts c ->
  smap_get (freePoints c') s = smap_get (freePoints c) s ->
  calculateStatWithBreakdown s c' = calculateStatWithBreakdown s c.
Proof.
  intros Hl Hch Hls Ht Hti Hb Hfp.
  assert (Hs : current_snapshot c' = current_snapshot c)
    by (unfold current_snapshot; now rewrite Hl, Hls).
  assert (Hcs : calculateClassScaling c' = calculateClassScaling c)
    by (unfold calculateClassScaling; now rewrite Hch, Hl).
  unfold calculateStatWithBreakdown. rewrite Hs, Hcs, Hl, Ht, Hti, Hb, Hfp.
  reflexivity.
Qed.

Lemma bd_freePoints_eq s c :
  bd_freePoints (snd (calculateStatWithBreakdown s c))
  = match fst (getRedirectedFreePoints (traits c) (level c)
                 (from_level (fst (current_snapshot c)))) with
    | None => num_or (smap_get (freePoints c) s) 0
    | Some t => if String.eqb t s then num_or (smap_get (freePoints c) s) 0 else 0
    end.
Proof.
  unfold calculateStatWithBreakdown.
  destruct (current_snapshot c) as [sl [sn|]]; reflexivity.
Qed.

(** X: [updateMainFreePoints(statName, value)] changes the Delta Composer's
    result for no other stat, and when no free points are redirected the
    manual free points of [statName] become [value]. *)
Theorem updateMainFreePoints_local c s v :
  (forall s', s' <> s ->
   calculateStatWithBreakdown s' (updateMainFreePoints c s v) = calculateStatWithBreakdown s' c)
  /\ (fst (getRedirectedFreePoints (traits c) (level c)
             (from_level (fst (current_snapshot c)))) = None ->
      bd_freePoints (snd (calculateStatWithBreakdown s (updateMainFreePoints c s v))) == v).
Proof.
  split.
  - intros s' Hs'. apply calc_freePoints_congr; try reflexivity.
    unfold updateMainFreePoints; cbn [freePoints with_freePoints].
    rewrite smap_get_assign. apply String.eqb_neq in Hs'. now rewrite Hs'.
  - intros Hr. rewrite bd_freePoints_eq.
    change (traits (updateMainFreePoints c s v)) with (traits c).
    change (level (updateMainFreePoints c s v)) with (level c).
    change (current_snapshot (updateMainFreePoints c s v)) with (current_snapshot c).
    rewrite Hr. unfold updateMainFreePoints; cbn [freePoints with_freePoints].
    rewrite smap_get_assign, String.eqb_refl. unfold num_or. rewrite !jsor_0. reflexivity.
Qed.

(** ** Class history handlers *)

Lemma insert_by_start_perm x l : Permutation (insert_by_start x l) (x :: l).
Proof.
  induction l as [|y r IH]; simpl; [reflexivity|].
  destruct (startLevel x <? startLevel y)%Z; [reflexivity|].
  rewrite IH. apply perm_swap.
Qed.

Lemma insert_by_start_sorted x l :
  Sorted (fun a b => (startLevel a <= startLevel b)%Z) l ->
  Sorted (fun a b => (startLevel a <= startLevel b)%Z) (insert_by_start x l).
Proof.
  induction l as [|y r IH]; simpl; intros H; [repeat constructor|].
  destruct (Z.ltb_spec (startLevel x) (startLevel y)) as [Hlt|Hge].
  - constructor; [exact H|constructor; lia].
  - apply Sorted_inv in H as [Hr Hhd]. constructor; [now apply IH|].
    destruct r as [|z r']; simpl; [constructor; lia|].
    destruct (startLevel x <? startLevel z)%Z; constructor; [lia|].
    now inversion Hhd.
Qed.

Lemma sort_by_start_acc l acc :
  Sorted (fun a b => (startLevel a <= startLevel b)%Z) acc ->
  Sorted (fun a b => (startLevel a <= startLevel b)%Z)
    (fold_left (fun acc x => insert_by_start x acc) l acc)
  /\ Permutation (fold_left (fun acc x => insert_by_start x acc) l acc) (acc ++ l).
Proof.
  revert acc. induction l as [|x r IH]; intros acc H; simpl.
  - rewrite app_nil_r. split; [exact H|reflexivity].
  - destruct (IH (insert_by_start x acc) (insert_by_start_sorted x acc H)) as [S P].
    split; [exact S|]. rewrite P, insert_by_start_perm. simpl.
    apply Permutation_middle.
Qed.

Lemma list_set_firstn {A} (l : list A) n x :
  (n < length l)%nat -> list_set l n x = firstn n l ++ x :: skipn (S n) l.
Proof.
  revert n. induction l as [|y r IH]; intros n H; simpl in H; [lia|].
  destruct n as [|n]; simpl; [reflexivity|]. f_equal. apply IH. lia.
Qed.

Lemma filter_index_firstn {A} (l : list A) start k :
  filter_index (start + k) start l = firstn k l ++ skipn (S k) l.
Proof.
  revert start k. induction l as [|x r IH]; intros start k; simpl;
    [now destruct k|].
  destruct k as [|k]; simpl.
  - rewrite Nat.add_0_r, Nat.eqb_refl. apply filter_index_below. lia.
  - destruct (Nat.eqb_spec start (start + S k)); [lia|]. f_equal.
    replace (start + S k)%nat with (S start + k)%nat by lia. apply IH.
Qed.

(** X: after [handleSaveEvolution] the class history is ordered by
    [startLevel] and holds exactly the previous entries with the edited one
    replaced by the saved data ([editingEvolutionIndex >= 0]) or with the
    saved data added ([-1]); [handleDeleteEvolution(index)] removes only the
    entry at [index]. *)
Theorem handleSaveEvolution_sorted c i evo :
  (i < Z.of_nat (length (classHistory c)))%Z ->
  Sorted (fun a b => (startLevel a <= startLevel b)%Z)
    (classHistory (handleSaveEvolution c i evo))
  /\ Permutation (classHistory (handleSaveEvolution c i evo))
       (if (0 <=? i)%Z
        then firstn (Z.to_nat i) (classHistory c) ++ evo
             :: skipn (S (Z.to_nat i)) (classHistory c)
        else classHistory c ++ [evo])
  /\ (forall k, classHistory (handleDeleteEvolution c k)
                = firstn k (classHistory c) ++ skipn (S k) (classHistory c)).
Proof.
  intros Hi. unfold handleSaveEvolution; cbn [classHistory with_classHistory].
  destruct (sort_by_start_acc
              (if (0 <=? i)%Z then list_set (classHistory c) (Z.to_nat i) evo
               else classHistory c ++ [evo]) [] (Sorted_nil _)) as [S P].
  split; [exact S|split].
  - unfold sort_by_start. rewrite P. simpl.
    destruct (Z.leb_spec 0 i); [|reflexivity].
    rewrite list_set_firstn by lia. reflexivity.
  - intros k. unfold handleDeleteEvolution; cbn [classHistory with_classHistory].
    exact (filter_index_firstn (classHistory c) 0 k).
Qed.

Lemma handleSaveEvolution_sorted_witness :
  (0 < Z.of_nat (length (classHistory (growth_char 10 []))))%Z
  /\ Sorted (fun a b => (startLevel a <= startLevel b)%Z)
       (classHistory (handleSaveEvolution (growth_char 10 []) 0 phase_5_10))
  /\ Permutation (classHistory (handleSaveEvolution (growth_char 10 []) 0 phase_5_10))
       (if (0 <=? 0)%Z
        then firstn (Z.to_nat 0) (classHistory (growth_char 10 [])) ++ phase_5_10
             :: skipn (S (Z.to_nat 0)) (classHistory (growth_char 10 []))
        else classHistory (growth_char 10 []) ++ [phase_5_10])
  /\ (forall k, classHistory (handleDeleteEvolution (growth_char 10 []) k)
                = firstn k (classHistory (growth_char 10 [])) ++ skipn (S k) (classHistory (growth_char 10 []))).
Proof.
  split; [vm_compute; reflexivity|]. apply handleSaveEvolution_sorted. vm_compute. reflexivity.
Defined.
